(** * Assignment API (app.py): registration, login and data capture

    A shallow embedding of the Flask application in [app.py] and the
    properties of its five request handlers.

    Conventions of the embedding.
    - A Python [str] is a [string]; a character of it is the code point
      below 256 with that number.  On these code points [\d] is [0-9].
      The password pattern is also given on every [str], as lists of code
      points ([Unicode]), and the two agree ([latin1_agrees]).
    - A Python [float] is a binary64 [float]; the handlers only carry it.
    - The two tables are lists of rows in insertion order, each row as a
      query gives it back.  A fresh row gets the integer primary key
      SQLite gives it, one more than the largest key in the table.  A
      DateTime column keeps the wall-clock fields of the datetime, a Float
      column gives a float back as [stored_float] says, and what a JSON
      column makes of a document is part of the formatter [py_str].
    - A request body is a record of its fields, each absent or holding the
      value the request parser converts it to; the required fields of a
      submission may also be JSON null, which the parser lets through.
    - The id in a path is any integer; the lookups by id are as the code
      has them for the ids SQLite holds ([sqlite_max_integer]).
    - A handler is a computation over the store: it yields the pair the
      Python method returns, or stops at an [abort(code, ...)] or at an
      exception nobody catches, which Flask answers with status 500.  A
      handler whose column default reads a clock takes the reading [now].
    - Limits of the interpreter (recursion depth, digits of an [int]) are
      left out. *)

From Stdlib Require Import ZArith NArith List String Ascii Bool Lia PrimFloat.
From Stdlib Require Import DecimalString.
Import ListNotations.
Local Open Scope string_scope.
Local Open Scope Z_scope.

Set Implicit Arguments.
Set Warnings "-register-all".

(** ** Characters and character classes of the password pattern *)

Definition charset := ascii -> bool.

Definition between (lo hi : ascii) : charset :=
  fun c => (nat_of_ascii lo <=? nat_of_ascii c)%nat
           && (nat_of_ascii c <=? nat_of_ascii hi)%nat.

(** [[A-Za-z]] *)
Definition letter : charset :=
  fun c => between "A" "Z" c || between "a" "z" c.

(** [\d] *)
Definition digit : charset := between "0" "9".

(** [[@$!%*?&]] *)
Definition symbol : charset :=
  fun c => existsb (Ascii.eqb c) ["@"; "$"; "!"; "%"; "*"; "?"; "&"]%char.

(** [[A-Za-z\d@$!%*?&]] *)
Definition allowed : charset :=
  fun c => letter c || digit c || symbol c.

Definition newline : ascii := "010"%char.

(** [.] without DOTALL: any character but a newline *)
Definition dot : charset := fun c => negb (Ascii.eqb c newline).

(** ** The fragment of Python's [re] the pattern is written in *)

Inductive regex : Type :=
| Bol                                   (* ^ *)
| Eol                                   (* $ *)
| Lookahead (r : regex)                 (* (?=r) *)
| Class (c : charset)                   (* one character of a class *)
| MinRepeat (lo : nat) (c : charset)    (* c{lo,}, greedy; c* is c{0,} *)
| Seq (r1 r2 : regex).

(** [c{lo,}] at [s], then the rest of the pattern [k]; greedy, with
    backtracking to shorter runs. *)
Fixpoint repeat_from (c : charset) (k : nat -> list ascii -> bool)
         (lo : nat) (pos : nat) (s : list ascii) {struct s} : bool :=
  match s with
  | [] => match lo with O => k pos [] | S _ => false end
  | a :: s' =>
      match lo with
      | O => (c a && repeat_from c k O (S pos) s') || k pos s
      | S lo' => c a && repeat_from c k lo' (S pos) s'
      end
  end.

(** The backtracking matcher: [r] at offset [pos], where [s] is what is
    left of the subject, followed by the continuation [k].  Without
    MULTILINE, [^] holds at offset 0 only and [$] holds at the end of the
    subject and just before a newline that ends it. *)
Fixpoint accept (r : regex) (pos : nat) (s : list ascii)
         (k : nat -> list ascii -> bool) : bool :=
  match r with
  | Bol => (pos =? 0)%nat && k pos s
  | Eol =>
      match s with
      | [] => k pos s
      | [c] => Ascii.eqb c newline && k pos s
      | _ => false
      end
  | Lookahead r' => accept r' pos s (fun _ _ => true) && k pos s
  | Class c =>
      match s with
      | a :: s' => c a && k (S pos) s'
      | [] => false
      end
  | MinRepeat lo c => repeat_from c k lo pos s
  | Seq r1 r2 => accept r1 pos s (fun pos' s' => accept r2 pos' s' k)
  end.

(** [re.match(r, s)] as a truth value: a match that starts at offset 0 and
    may end anywhere. *)
Definition re_match (r : regex) (s : string) : bool :=
  accept r 0 (list_ascii_of_string s) (fun _ _ => true).

Definition seq (rs : list regex) (last : regex) : regex :=
  fold_right Seq last rs.

(** [^(?=.*[A-Za-z])(?=.*\d)(?=.*[@$!%*?&])[A-Za-z\d@$!%*?&]{8,}$] *)
Definition pattern : regex :=
  seq [ Bol;
        Lookahead (Seq (MinRepeat 0 dot) (Class letter));
        Lookahead (Seq (MinRepeat 0 dot) (Class digit));
        Lookahead (Seq (MinRepeat 0 dot) (Class symbol));
        MinRepeat 8 allowed ]
      Eol.

Definition is_valid_password (password : string) : bool :=
  re_match pattern password.

(** The password policy in the specification's words: at least 8
    characters, at least one letter, one digit and one symbol of the fixed
    set, and no character outside these classes. *)
Definition policy_chars (cs : list ascii) : bool :=
  (8 <=? List.length cs)%nat
  && forallb allowed cs
  && existsb letter cs && existsb digit cs && existsb symbol cs.

Definition policy (password : string) : bool :=
  policy_chars (list_ascii_of_string password).

(** ** [json.loads]

    The values the decoder builds are Python objects.  An integer literal
    becomes an [int]; a literal with a fraction or an exponent (and [NaN],
    [Infinity], [-Infinity]) becomes a [float], kept here as the literal's
    text.  A decoded string is a list of code points, since a [\uXXXX]
    escape may name any of them. *)

Inductive pyval : Type :=
| PyNone
| PyBool (b : bool)
| PyInt (z : Z)
| PyFloat (lexeme : string)
| PyStr (s : list N)
| PyList (items : list pyval)
| PyDict (items : list (list N * pyval)).

Definition dquote : ascii := "034"%char.
Definition backslash : ascii := "092"%char.

(** [WHITESPACE = re.compile(r'[ \t\n\r]*')] *)
Definition is_ws (c : ascii) : bool :=
  existsb (Ascii.eqb c) [" "; "009"; "010"; "013"]%char.

Fixpoint skip_ws (s : list ascii) : list ascii :=
  match s with
  | c :: s' => if is_ws c then skip_ws s' else s
  | [] => []
  end.

Definition hex_value (c : ascii) : option N :=
  let n := N_of_ascii c in
  if digit c then Some (n - 48)%N
  else if between "a" "f" c then Some (n - 87)%N
  else if between "A" "F" c then Some (n - 55)%N
  else None.

Definition decode_uXXXX (h1 h2 h3 h4 : ascii) : option N :=
  match hex_value h1, hex_value h2, hex_value h3, hex_value h4 with
  | Some a, Some b, Some c, Some d => Some (((a * 16 + b) * 16 + c) * 16 + d)%N
  | _, _, _, _ => None
  end.

(** [BACKSLASH]: the one-character escapes. *)
Definition backslash_decode (e : ascii) : option N :=
  if Ascii.eqb e dquote then Some 34%N
  else if Ascii.eqb e backslash then Some 92%N
  else match e with
       | "/" => Some 47 | "b" => Some 8 | "f" => Some 12
       | "n" => Some 10 | "r" => Some 13 | "t" => Some 9
       | _ => None
       end%char%N.

(** The body of a string literal, from just after the opening quote up to
    the closing one, in strict mode: a control character is an error.
    Escapes are decoded one [\uXXXX] unit at a time. *)
Fixpoint scan_units (s : list ascii) : option (list N * list ascii) :=
  match s with
  | [] => None
  | c :: s1 =>
      if Ascii.eqb c dquote then Some ([], s1)
      else if Ascii.eqb c backslash then
        match s1 with
        | [] => None
        | e :: s2 =>
            if Ascii.eqb e "u" then
              match s2 with
              | h1 :: h2 :: h3 :: h4 :: s3 =>
                  match decode_uXXXX h1 h2 h3 h4, scan_units s3 with
                  | Some u, Some (us, rest) => Some (u :: us, rest)
                  | _, _ => None
                  end
              | _ => None
              end
            else
              match backslash_decode e, scan_units s2 with
              | Some u, Some (us, rest) => Some (u :: us, rest)
              | _, _ => None
              end
        end
      else if (N_of_ascii c <? 32)%N then None
      else
        match scan_units s1 with
        | Some (us, rest) => Some (N_of_ascii c :: us, rest)
        | None => None
        end
  end.

(** An escaped high surrogate directly followed by an escaped low one is
    one code point. *)
Fixpoint join_surrogates (us : list N) : list N :=
  match us with
  | [] => []
  | hi :: rest =>
      match rest with
      | lo :: rest' =>
          if ((55296 <=? hi) && (hi <=? 56319)
              && (56320 <=? lo) && (lo <=? 57343))%N
          then (65536 + (hi - 55296) * 1024 + (lo - 56320))%N
                 :: join_surrogates rest'
          else hi :: join_surrogates rest
      | [] => [hi]
      end
  end.

Definition scanstring (s : list ascii) : option (list N * list ascii) :=
  match scan_units s with
  | Some (us, rest) => Some (join_surrogates us, rest)
  | None => None
  end.

Fixpoint span_digits (s : list ascii) : list ascii * list ascii :=
  match s with
  | c :: s' =>
      if digit c then let (ds, rest) := span_digits s' in (c :: ds, rest)
      else ([], s)
  | [] => ([], [])
  end.

Definition int_of_digits (ds : list ascii) : Z :=
  fold_left (fun acc c => acc * 10 + (Z.of_nat (nat_of_ascii c) - 48)) ds 0.

(** [s[idx:idx + 1] == c], with what follows the character. *)
Definition expect (c : ascii) (s : list ascii) : option (list ascii) :=
  match s with
  | x :: rest => if Ascii.eqb x c then Some rest else None
  | [] => None
  end.

(** [s[idx:idx + len(word)] == word], with what follows the word. *)
Fixpoint starts_with (word s : list ascii) : option (list ascii) :=
  match word, s with
  | [], _ => Some s
  | w :: word', c :: s' => if Ascii.eqb w c then starts_with word' s' else None
  | _ :: _, [] => None
  end.

(** [NUMBER_RE]: an optional minus sign and an integer part ([0], or a
    nonzero digit and any digits), then optionally a fraction ([.] and one
    digit or more), then optionally an exponent ([e] or [E], an optional
    sign, one digit or more).  With neither fraction nor exponent the
    literal is an [int]. *)
Definition match_number (s : list ascii) : option (pyval * list ascii) :=
  let (sign, s1) :=
    match expect "-" s with
    | Some t => (true, t)
    | None => (false, s)
    end in
  match s1 with
  | d :: t =>
      if digit d then
        let (more, s2) :=
          if Ascii.eqb d "0" then ([], t) else span_digits t in
        let integer := d :: more in
        let (frac, s3) :=
          match expect "." s2 with
          | Some f =>
              match span_digits f with
              | ([], _) => ([], s2)
              | (ds, r) => ("."%char :: ds, r)
              end
          | None => ([], s2)
          end in
        let (exp, s4) :=
          match s3 with
          | e :: x =>
              if Ascii.eqb e "e" || Ascii.eqb e "E" then
                let (sg, x') :=
                  match expect "-" x, expect "+" x with
                  | Some y, _ => (["-"%char], y)
                  | None, Some y => (["+"%char], y)
                  | None, None => ([], x)
                  end in
                match span_digits x' with
                | ([], _) => ([], s3)
                | (ds, r) => (e :: sg ++ ds, r)%list
                end
              else ([], s3)
          | [] => ([], s3)
          end in
        match (frac ++ exp)%list with
        | [] =>
            Some (PyInt (if sign then - int_of_digits integer
                         else int_of_digits integer), s4)
        | _ :: _ =>
            Some (PyFloat (string_of_list_ascii
                             ((if sign then ["-"%char] else [])
                                ++ integer ++ frac ++ exp)%list), s4)
        end
      else None
  | [] => None
  end.

(** The values [scan_once] reads without recursion: the three constants,
    a number, and the three names of floats that are not numbers. *)
Definition scan_literal (s : list ascii) : option (pyval * list ascii) :=
  match starts_with (list_ascii_of_string "null") s,
        starts_with (list_ascii_of_string "true") s,
        starts_with (list_ascii_of_string "false") s with
  | Some rest, _, _ => Some (PyNone, rest)
  | None, Some rest, _ => Some (PyBool true, rest)
  | None, None, Some rest => Some (PyBool false, rest)
  | None, None, None =>
      match match_number s with
      | Some r => Some r
      | None =>
          match starts_with (list_ascii_of_string "NaN") s,
                starts_with (list_ascii_of_string "Infinity") s,
                starts_with (list_ascii_of_string "-Infinity") s with
          | Some rest, _, _ => Some (PyFloat "NaN", rest)
          | None, Some rest, _ => Some (PyFloat "Infinity", rest)
          | None, None, Some rest => Some (PyFloat "-Infinity", rest)
          | None, None, None => None
          end
      end
  end.

Definition key_eq_dec : forall k k' : list N, {k = k'} + {k <> k'} :=
  list_eq_dec N.eq_dec.

(** [dict(pairs)]: a later pair with a key already present replaces its
    value and keeps its place. *)
Fixpoint dict_set (k : list N) (v : pyval) (d : list (list N * pyval))
  : list (list N * pyval) :=
  match d with
  | [] => [(k, v)]
  | (k', v') :: d' =>
      if key_eq_dec k k' then (k, v) :: d' else (k', v') :: dict_set k v d'
  end.

Definition dict (pairs : list (list N * pyval)) : list (list N * pyval) :=
  fold_left (fun d kv => dict_set (fst kv) (snd kv) d) pairs [].

(** [scan_once], [JSONArray] and [JSONObject] of [json.scanner] and
    [json.decoder].  The decoder is recursive in the nesting of the
    document, so the three functions descend on a bound [fuel] on the
    number of calls; [array_items] and [object_items] are the two [while]
    loops, entered where the next element (the next key's quote) is due. *)
Fixpoint scan_once (fuel : nat) (s : list ascii)
  : option (pyval * list ascii) :=
  match fuel with
  | O => None
  | S fuel' =>
      match expect dquote s, expect "{" s, expect "[" s with
      | Some s', _, _ =>
          match scanstring s' with
          | Some (str, rest) => Some (PyStr str, rest)
          | None => None
          end
      | None, Some s', _ =>
          match expect "}" (skip_ws s') with
          | Some rest => Some (PyDict [], rest)
          | None =>
              match object_items fuel' (skip_ws s') with
              | Some (pairs, rest) => Some (PyDict (dict pairs), rest)
              | None => None
              end
          end
      | None, None, Some s' =>
          match expect "]" (skip_ws s') with
          | Some rest => Some (PyList [], rest)
          | None =>
              match array_items fuel' (skip_ws s') with
              | Some (values, rest) => Some (PyList values, rest)
              | None => None
              end
          end
      | None, None, None => scan_literal s
      end
  end

with array_items (fuel : nat) (s : list ascii)
  : option (list pyval * list ascii) :=
  match fuel with
  | O => None
  | S fuel' =>
      match scan_once fuel' s with
      | Some (value, s1) =>
          match expect "]" (skip_ws s1), expect "," (skip_ws s1) with
          | Some rest, _ => Some ([value], rest)
          | None, Some s2 =>
              match array_items fuel' (skip_ws s2) with
              | Some (values, rest) => Some (value :: values, rest)
              | None => None
              end
          | None, None => None
          end
      | None => None
      end
  end

with object_items (fuel : nat) (s : list ascii)
  : option (list (list N * pyval) * list ascii) :=
  match fuel with
  | O => None
  | S fuel' =>
      match expect dquote s with
      | Some s0 =>
          match scanstring s0 with
          | Some (key, s1) =>
              match expect ":" (skip_ws s1) with
              | Some s2 =>
                  match scan_once fuel' (skip_ws s2) with
                  | Some (value, s3) =>
                      match expect "}" (skip_ws s3),
                            expect "," (skip_ws s3) with
                      | Some rest, _ => Some ([(key, value)], rest)
                      | None, Some s4 =>
                          match object_items fuel' (skip_ws s4) with
                          | Some (pairs, rest) =>
                              Some ((key, value) :: pairs, rest)
                          | None => None
                          end
                      | None, None => None
                      end
                  | None => None
                  end
              | None => None
              end
          | None => None
          end
      | None => None
      end
  end.

(** [json.loads(s)]: [Some] of the decoded object, [None] where the
    decoder raises [JSONDecodeError] (no value, a malformed one, or text
    after the value).  The bound on the calls is one that no text
    reaches ([enough_fuel] below). *)
Definition json_loads (s : string) : option pyval :=
  let cs := skip_ws (list_ascii_of_string s) in
  match scan_once (S (2 * List.length cs)) cs with
  | Some (obj, rest) =>
      match skip_ws rest with
      | [] => Some obj
      | _ :: _ => None
      end
  | None => None
  end.

(** ** [str()] of a decoded object

    [fields.String] formats a value that is not [None] with [str].  The
    function below is Python's [str] on the decoded objects that hold no
    [float] and whose strings are ASCII or printable; a [float] is shown
    by its literal.  The handlers take the formatter as a parameter
    ([py_str] below), so that what is proved of them holds of Python's own
    [str] on what the database gives back; this instance serves to run
    them on documents that are not numbers. *)

Definition codes (s : string) : list N :=
  map N_of_ascii (list_ascii_of_string s).

Definition str_of_int (z : Z) : list N :=
  codes (NilEmpty.string_of_int (Z.to_int z)).

Definition hex_digit (n : N) : N :=
  if (n <? 10)%N then (48 + n)%N else (87 + n)%N.

Definition repr_char (quote : N) (c : N) : list N :=
  if (c =? 92)%N then [92; 92]%N
  else if (c =? quote)%N then [92; c]%N
  else if (c =? 9)%N then codes "\t"
  else if (c =? 10)%N then codes "\n"
  else if (c =? 13)%N then codes "\r"
  else if ((c <? 32) || (c =? 127))%N
       then (codes "\x" ++ [hex_digit (c / 16); hex_digit (c mod 16)])%list
  else [c].

Definition repr_str (s : list N) : list N :=
  let quote :=
    if existsb (N.eqb 39) s && negb (existsb (N.eqb 34) s)
    then 34%N else 39%N in
  (quote :: flat_map (repr_char quote) s ++ [quote])%list.

Fixpoint join (sep : list N) (parts : list (list N)) : list N :=
  match parts with
  | [] => []
  | [p] => p
  | p :: ps => (p ++ sep ++ join sep ps)%list
  end.

Fixpoint repr (v : pyval) : list N :=
  match v with
  | PyNone => codes "None"
  | PyBool true => codes "True"
  | PyBool false => codes "False"
  | PyInt z => str_of_int z
  | PyFloat lexeme => codes lexeme
  | PyStr s => repr_str s
  | PyList items =>
      (codes "[" ++ join (codes ", ") (map repr items) ++ codes "]")%list
  | PyDict items =>
      (codes "{"
         ++ join (codes ", ")
              (map (fun kv => repr_str (fst kv) ++ codes ": " ++ repr (snd kv))
                 items)
         ++ codes "}")%list
  end.

Definition str (v : pyval) : list N :=
  match v with
  | PyStr s => s
  | _ => repr v
  end.

(** ** [datetime] *)

Record datetime : Type := {
  year : nat; month : nat; day : nat;
  hour : nat; minute : nat; second : nat; microsecond : nat
}.

(** ["%0<width>d" % n] *)
Definition zero_padded (width n : nat) : string :=
  let ds := NilEmpty.string_of_uint (Nat.to_uint n) in
  string_of_list_ascii (repeat "0"%char (width - String.length ds)) ++ ds.

(** [datetime.isoformat()] of a naive datetime, which is what a DateTime
    column gives back. *)
Definition isoformat (d : datetime) : string :=
  zero_padded 4 (year d) ++ "-" ++ zero_padded 2 (month d) ++ "-"
    ++ zero_padded 2 (day d) ++ "T"
    ++ zero_padded 2 (hour d) ++ ":" ++ zero_padded 2 (minute d) ++ ":"
    ++ zero_padded 2 (second d)
    ++ (if (microsecond d =? 0)%nat then ""
        else "." ++ zero_padded 6 (microsecond d)).

(** ** The two tables *)

Module UserModel.
Record t : Type := {
  id : Z;
  username : string;
  password : string;
  created_at : datetime
}.
End UserModel.

(** A row of [DataCaptureModel] as a query gives it: [None] in a column is
    SQL NULL.  The two JSON columns hold the document that was written
    ([PyNone] for null); what SQLite makes of a document shows when it is
    formatted for a response ([py_str] below). *)
Module DataCaptureModel.
Record t : Type := {
  id : Z;
  user_id : Z;
  latitude : option float;
  longitude : option float;
  isp : option string;
  os : option string;
  keystroke_dynamics : option string;
  mouse_movement_patterns : option string;
  touch_interaction_patterns : pyval;
  sensor_data : pyval;
  created_at : datetime
}.
End DataCaptureModel.

Record store : Type := {
  users : list UserModel.t;
  captures : list DataCaptureModel.t
}.

Definition empty_store : store := {| users := []; captures := [] |}.

(** ** Handlers as computations over the store *)

Inductive exn : Type := JSONDecodeError.

(** The payload of an [abort]: a message of the application, or the
    request parser's complaint about one argument. *)
Inductive message : Type :=
| Message (text : string)
| ArgumentError (name : string).

Inductive result (A : Type) : Type :=
| Val (a : A)
| Abort (status : Z) (msg : message)
| Raise (e : exn).

Arguments Abort {A} status msg.
Arguments Raise {A} e.

Definition M (A : Type) : Type := store -> result A * store.

Definition ret {A} (a : A) : M A := fun db => (Val a, db).

Definition bind {A B} (m : M A) (k : A -> M B) : M B :=
  fun db =>
    match m db with
    | (Val a, db') => k a db'
    | (Abort status msg, db') => (Abort status msg, db')
    | (Raise e, db') => (Raise e, db')
    end.

Notation "x <- m ;; k" := (bind m (fun x => k))
  (at level 61, m at next level, right associativity).
Notation "m ;;; k" := (bind m (fun _ => k))
  (at level 61, right associativity).

Definition abort {A} (status : Z) (text : string) : M A :=
  fun db => (Abort status (Message text), db).

Definition raise {A} (e : exn) : M A := fun db => (Raise e, db).

(** What the client sees of a handler's outcome: the status the handler
    returned or aborted with, and 500 for an exception left uncaught. *)
Definition status_of {A} (r : result (A * Z)) : Z :=
  match r with
  | Val (_, status) => status
  | Abort status _ => status
  | Raise _ => 500
  end.

(** The integer primary key of the next row. *)
Definition next_id (ids : list Z) : Z := 1 + fold_right Z.max 0 ids.

(** [UserModel.query.filter_by(...).first()] *)
Definition query_user_first (p : UserModel.t -> bool)
  : M (option UserModel.t) :=
  fun db => (Val (find p (users db)), db).

(** The largest integer SQLite holds.  The [int] converter of a route
    puts no bound on the id in the path, and sqlite3 raises OverflowError
    when it is given a larger one. *)
Definition sqlite_max_integer : Z := 2 ^ 63 - 1.

(** [UserModel.query.get(user_id)], for an id that SQLite holds. *)
Definition query_user_get (user_id : Z) : M (option UserModel.t) :=
  query_user_first (fun u => UserModel.id u =? user_id).

(** [DataCaptureModel.query.filter_by(user_id=...).all()] *)
Definition query_captures_all (p : DataCaptureModel.t -> bool)
  : M (list DataCaptureModel.t) :=
  fun db => (Val (filter p (captures db)), db).

(** [db.session.add(user); db.session.commit()]: the row gets its key and
    the column default [datetime.datetime.now(IST)], read as [now]. *)
Definition add_user (username password : string) (now : datetime)
  : M UserModel.t :=
  fun db =>
    let user :=
      {| UserModel.id := next_id (map UserModel.id (users db));
         UserModel.username := username;
         UserModel.password := password;
         UserModel.created_at := now |} in
    (Val user, {| users := users db ++ [user]; captures := captures db |}).

(** ** The request parsers *)

(** The body of a request to [/api/register] or [/api/login]: each field
    is absent or has a value (a body with a JSON null for one of them is
    not among these records). *)
Record user_request : Type := {
  req_username : option string;
  req_password : option string
}.

Module user_args.
Record t : Type := { username : string; password : string }.
End user_args.

(** A field that the parser converts with [float]: absent, present as
    JSON null, present with a value [float] rejects, or present with the
    float it converts to. *)
Inductive float_field : Type :=
| NoField
| NullField
| NotAFloat
| FloatField (x : float).

(** A required text field: absent, present as JSON null, or present with
    the text it converts to. *)
Inductive text_field : Type :=
| NoText
| NullText
| Text (s : string).

(** The body of a submission.  For the four optional fields absent and
    null are one case, [None], as they are for the parser. *)
Record data_capture_request : Type := {
  req_latitude : float_field;
  req_longitude : float_field;
  req_isp : text_field;
  req_os : text_field;
  req_keystroke_dynamics : option string;
  req_mouse_movement_patterns : option string;
  req_touch_interaction_patterns : option string;
  req_sensor_data : option string
}.

(** The parsed arguments; [None] is Python's [None]. *)
Module data_capture_args.
Record t : Type := {
  latitude : option float;
  longitude : option float;
  isp : option string;
  os : option string;
  keystroke_dynamics : option string;
  mouse_movement_patterns : option string;
  touch_interaction_patterns : option string;
  sensor_data : option string
}.
End data_capture_args.

(** An argument declared [required=True]: the parser aborts with 400 when
    it is missing. *)
Definition required {A} (name : string) (field : option A) : M A :=
  fun db =>
    match field with
    | Some a => (Val a, db)
    | None => (Abort 400 (ArgumentError name), db)
    end.

(** The value the parser gives a [type=float] argument that it accepts:
    a null is not converted and comes out as [None]. *)
Definition float_value (field : float_field) : option (option float) :=
  match field with
  | FloatField x => Some (Some x)
  | NullField => Some None
  | NoField | NotAFloat => None
  end.

(** The value the parser gives a text argument that is there. *)
Definition text_value (field : text_field) : option (option string) :=
  match field with
  | Text s => Some (Some s)
  | NullText => Some None
  | NoText => None
  end.

(** A required [type=float] argument: 400 when it is missing and when
    [float] rejects its value. *)
Definition required_float (name : string) (field : float_field)
  : M (option float) :=
  required name (float_value field).

(** A required [type=str] argument. *)
Definition required_text (name : string) (field : text_field)
  : M (option string) :=
  required name (text_value field).

(** [user_args.parse_args()] *)
Definition user_args_parse_args (req : user_request) : M user_args.t :=
  username <- required "username" (req_username req) ;;
  password <- required "password" (req_password req) ;;
  ret {| user_args.username := username; user_args.password := password |}.

(** [data_capture_args.parse_args()] *)
Definition data_capture_args_parse_args (req : data_capture_request)
  : M data_capture_args.t :=
  latitude <- required_float "latitude" (req_latitude req) ;;
  longitude <- required_float "longitude" (req_longitude req) ;;
  isp <- required_text "isp" (req_isp req) ;;
  os <- required_text "os" (req_os req) ;;
  ret {| data_capture_args.latitude := latitude;
         data_capture_args.longitude := longitude;
         data_capture_args.isp := isp;
         data_capture_args.os := os;
         data_capture_args.keystroke_dynamics := req_keystroke_dynamics req;
         data_capture_args.mouse_movement_patterns :=
           req_mouse_movement_patterns req;
         data_capture_args.touch_interaction_patterns :=
           req_touch_interaction_patterns req;
         data_capture_args.sensor_data := req_sensor_data req |}.

(** ** The response fields of a capture ([data_capture_fields]) *)

Module data_capture_fields.
Record t : Type := {
  id : Z;
  user_id : Z;
  latitude : option float;
  longitude : option float;
  isp : option string;
  os : option string;
  keystroke_dynamics : option string;
  mouse_movement_patterns : option string;
  touch_interaction_patterns : option (list N);
  sensor_data : option (list N);
  created_at : datetime                (* before its RFC 822 rendering *)
}.
End data_capture_fields.

(** A value in the body of a response that is a dict literal. *)
Inductive field_value : Type :=
| IntValue (z : Z)
| StrValue (s : string).

(** [abort(status, message=text)] when [cond] holds. *)
Definition abort_if (cond : bool) (status : Z) (text : string) : M unit :=
  if cond then abort status text else ret tt.

Definition is_some {A} (o : option A) : bool :=
  match o with Some _ => true | None => false end.

(** [json.loads(args[name])] under [if args.get(name):], else [None]. *)
Definition loads_if_given (field : option string) : M pyval :=
  match field with
  | Some (String _ _ as text) =>
      match json_loads text with
      | Some obj => ret obj
      | None => raise JSONDecodeError
      end
  | Some EmptyString | None => ret PyNone
  end.

(** What a Float column gives back for a float written to it: SQLite
    binds a NaN as NULL and keeps no sign of a zero; any other float comes
    back as it was. *)
Definition stored_float (x : float) : option float :=
  if PrimFloat.is_nan x then None
  else if PrimFloat.is_zero x then Some PrimFloat.zero
  else Some x.

Definition stored_coordinate (value : option float) : option float :=
  match value with
  | Some x => stored_float x
  | None => None
  end.

(** [db.session.add(data_capture); db.session.commit()]: the row gets its
    key and the column default [datetime.datetime.utcnow()], read as [now].
    The object the handler goes on with is reloaded after the commit, so
    it is the row as the table gives it. *)
Definition add_data_capture (user_id : Z) (args : data_capture_args.t)
           (touch_interaction_patterns sensor_data : pyval) (now : datetime)
  : M DataCaptureModel.t :=
  fun db =>
    let data_capture :=
      {| DataCaptureModel.id :=
           next_id (map DataCaptureModel.id (captures db));
         DataCaptureModel.user_id := user_id;
         DataCaptureModel.latitude :=
           stored_coordinate (data_capture_args.latitude args);
         DataCaptureModel.longitude :=
           stored_coordinate (data_capture_args.longitude args);
         DataCaptureModel.isp := data_capture_args.isp args;
         DataCaptureModel.os := data_capture_args.os args;
         DataCaptureModel.keystroke_dynamics :=
           data_capture_args.keystroke_dynamics args;
         DataCaptureModel.mouse_movement_patterns :=
           data_capture_args.mouse_movement_patterns args;
         DataCaptureModel.touch_interaction_patterns :=
           touch_interaction_patterns;
         DataCaptureModel.sensor_data := sensor_data;
         DataCaptureModel.created_at := now |} in
    (Val data_capture,
     {| users := users db; captures := captures db ++ [data_capture] |}).

Definition weak_password : string :=
  "Password must be at least 8 characters long, including at least "
  ++ "one letter, one number, and one special character.".

(** [RegisterUser.post]; [marshal_with(user_fields)] keeps the four
    columns of the row, so the body is the row. *)
Definition RegisterUser_post (now : datetime) (req : user_request)
  : M (UserModel.t * Z) :=
  args <- user_args_parse_args req ;;
  existing <- query_user_first
                (fun u => String.eqb (UserModel.username u)
                                     (user_args.username args)) ;;
  abort_if (is_some existing) 409 "Username already exists" ;;;
  abort_if (negb (is_valid_password (user_args.password args))) 400
    weak_password ;;;
  user <- add_user (user_args.username args) (user_args.password args) now ;;
  ret (user, 201).

(** [LoginUser.post] *)
Definition LoginUser_post (req : user_request)
  : M (list (string * field_value) * Z) :=
  args <- user_args_parse_args req ;;
  user <- query_user_first
            (fun u => String.eqb (UserModel.username u)
                                 (user_args.username args)
                      && String.eqb (UserModel.password u)
                                    (user_args.password args)) ;;
  match user with
  | Some user =>
      let user_response :=
        [ ("id", IntValue (UserModel.id user));
          ("username", StrValue (UserModel.username user));
          ("createdAt", StrValue (isoformat (UserModel.created_at user))) ] in
      ret (user_response, 200)
  | None => abort 401 "Invalid credentials"
  end.

(** [StopDataCapture.post] *)
Definition StopDataCapture_post (user_id : Z)
  : M (list (string * field_value) * Z) :=
  user <- query_user_get user_id ;;
  match user with
  | None => abort 404 "User not found"
  | Some user =>
      ret ([("message",
             StrValue ("Data capture stopped for user "
                         ++ UserModel.username user))], 200)
  end.

Section Marshalled.

(** What [fields.String] shows of a document of a JSON column that is not
    [None]: Python's [str] of the object the column gives back for the
    document.  The column gives back the document that was written,
    except that SQLite's numeric affinity rewrites a document that is a
    number: [1.0] comes back as [1], an integer past 64 bits as a
    float. *)
Variable py_str : pyval -> list N.

(** [fields.String]: [None] stays [None], anything else goes through
    [str]. *)
Definition fields_String (value : pyval) : option (list N) :=
  match value with
  | PyNone => None
  | _ => Some (py_str value)
  end.

(** [marshal(row, data_capture_fields)] *)
Definition marshal_data_capture (row : DataCaptureModel.t)
  : data_capture_fields.t :=
  {| data_capture_fields.id := DataCaptureModel.id row;
     data_capture_fields.user_id := DataCaptureModel.user_id row;
     data_capture_fields.latitude := DataCaptureModel.latitude row;
     data_capture_fields.longitude := DataCaptureModel.longitude row;
     data_capture_fields.isp := DataCaptureModel.isp row;
     data_capture_fields.os := DataCaptureModel.os row;
     data_capture_fields.keystroke_dynamics :=
       DataCaptureModel.keystroke_dynamics row;
     data_capture_fields.mouse_movement_patterns :=
       DataCaptureModel.mouse_movement_patterns row;
     data_capture_fields.touch_interaction_patterns :=
       fields_String (DataCaptureModel.touch_interaction_patterns row);
     data_capture_fields.sensor_data :=
       fields_String (DataCaptureModel.sensor_data row);
     data_capture_fields.created_at := DataCaptureModel.created_at row |}.

(** [DataCapture.post] *)
Definition DataCapture_post (now : datetime) (user_id : Z)
           (req : data_capture_request)
  : M (data_capture_fields.t * Z) :=
  args <- data_capture_args_parse_args req ;;
  user <- query_user_get user_id ;;
  match user with
  | None => abort 404 "User not found"
  | Some user =>
      touch_interaction_patterns <-
        loads_if_given (data_capture_args.touch_interaction_patterns args) ;;
      sensor_data <- loads_if_given (data_capture_args.sensor_data args) ;;
      data_capture <- add_data_capture (UserModel.id user) args
                        touch_interaction_patterns sensor_data now ;;
      ret (marshal_data_capture data_capture, 201)
  end.

(** [GetUserData.get] *)
Definition GetUserData_get (user_id : Z)
  : M (list data_capture_fields.t * Z) :=
  user <- query_user_get user_id ;;
  match user with
  | None => abort 404 "User not found"
  | Some user =>
      data_entries <- query_captures_all
                        (fun c => DataCaptureModel.user_id c
                                  =? UserModel.id user) ;;
      ret (map marshal_data_capture data_entries, 200)
  end.

(** ** The routes *)

Inductive request : Type :=
| Register (now : datetime) (body : user_request)
| Login (body : user_request)
| Capture (now : datetime) (user_id : Z) (body : data_capture_request)
| StopCapture (user_id : Z)
| GetData (user_id : Z).

(** The store a request leaves behind. *)
Definition serve (db : store) (r : request) : store :=
  match r with
  | Register now body => snd (RegisterUser_post now body db)
  | Login body => snd (LoginUser_post body db)
  | Capture now user_id body => snd (DataCapture_post now user_id body db)
  | StopCapture user_id => snd (StopDataCapture_post user_id db)
  | GetData user_id => snd (GetUserData_get user_id db)
  end.

(** The stores the service can be in: the empty database, and what any
    request makes of a store it can be in. *)
Inductive reachable : store -> Prop :=
| reachable_empty : reachable empty_store
| reachable_serve db r : reachable db -> reachable (serve db r).

End Marshalled.

(** ** Properties of stores *)

Definition usernames (db : store) : list string :=
  map UserModel.username (users db).

Definition user_exists (db : store) (user_id : Z) : Prop :=
  exists u, In u (users db) /\ UserModel.id u = user_id.

Definition username_taken (db : store) (name : string) : Prop :=
  In name (usernames db).

(** Every capture belongs to a stored user. *)
Definition referential_integrity (db : store) : Prop :=
  forall c, In c (captures db) -> user_exists db (DataCaptureModel.user_id c).

(** The value of a field of a dict-literal body. *)
Definition field (name : string) (body : list (string * field_value))
  : option field_value :=
  option_map snd (find (fun kv => String.eqb (fst kv) name) body).

(** A body with a username and a password. *)
Definition credentials (username password : string) : user_request :=
  {| req_username := Some username; req_password := Some password |}.


(** The body of a successful login for [u]. *)
Definition user_response (u : UserModel.t) : list (string * field_value) :=
  [ ("id", IntValue (UserModel.id u));
    ("username", StrValue (UserModel.username u));
    ("createdAt", StrValue (isoformat (UserModel.created_at u))) ].

(** The bodies [data_capture_args] accepts: the four required arguments
    are there, and each coordinate is null or converts to a float. *)
Definition complete (req : data_capture_request) : bool :=
  is_some (float_value (req_latitude req))
  && is_some (float_value (req_longitude req))
  && is_some (text_value (req_isp req))
  && is_some (text_value (req_os req)).

(** A JSON field that is given, not empty, and not a JSON document. *)
Definition malformed (field : option string) : Prop :=
  exists text, field = Some text /\ text <> "" /\ json_loads text = None.

(** The captures of a user. *)
Definition owned_by (user_id : Z) (c : DataCaptureModel.t) : bool :=
  DataCaptureModel.user_id c =? user_id.

(** The object a JSON field of the body is stored as: the decoded
    document, and [None] for a field that is absent or empty. *)
Definition decoded (field : option string) : pyval :=
  match field with
  | Some (String _ _ as text) =>
      match json_loads text with
      | Some obj => obj
      | None => PyNone
      end
  | Some EmptyString | None => PyNone
  end.

(** ** Sample requests *)

Definition q : string := String dquote EmptyString.

Definition nl : string := String newline EmptyString.

Definition morning : datetime :=
  {| year := 2024; month := 3; day := 9;
     hour := 7; minute := 5; second := 0; microsecond := 120 |}.

Definition alice : user_request := credentials "alice" "Valid1Pass!".

(** The store after alice has registered. *)
Definition alice_registered : store :=
  snd (RegisterUser_post morning alice empty_store).

Definition sample (touch : option string) : data_capture_request :=
  {| req_latitude := FloatField 12.5;
     req_longitude := FloatField 77.25;
     req_isp := Text "Airtel";
     req_os := Text "Android";
     req_keystroke_dynamics := Some "fast";
     req_mouse_movement_patterns := None;
     req_touch_interaction_patterns := touch;
     req_sensor_data := None |}.

(** A body without any field. *)
Definition no_fields : data_capture_request :=
  {| req_latitude := NoField;
     req_longitude := NoField;
     req_isp := NoText;
     req_os := NoText;
     req_keystroke_dynamics := None;
     req_mouse_movement_patterns := None;
     req_touch_interaction_patterns := None;
     req_sensor_data := None |}.

(** The JSON document [{"a": 1}]. *)
Definition a_is_1 : string := "{" ++ q ++ "a" ++ q ++ ": 1}".

(** ** The pattern on every [str]

    A [str] holds any code points, and in a [str] pattern [\d] is every
    decimal digit of Unicode (category Nd), a table of the interpreter
    that is a parameter here.  The matcher is the one above, on code
    points; on the code points below 256 it is [is_valid_password]
    ([latin1_agrees] below). *)

Module Unicode.
Section Pattern.

Variable decimal : N -> bool.

Definition charset := N -> bool.

Definition between (lo hi : N) : charset :=
  fun c => ((lo <=? c) && (c <=? hi))%N.

(** [[A-Za-z]] *)
Definition letter : charset :=
  fun c => between 65 90 c || between 97 122 c.

(** [[@$!%*?&]] *)
Definition symbol : charset :=
  fun c => existsb (N.eqb c) [64; 36; 33; 37; 42; 63; 38]%N.

(** [[A-Za-z\d@$!%*?&]] *)
Definition allowed : charset :=
  fun c => letter c || decimal c || symbol c.

Definition newline : N := 10.

Definition dot : charset := fun c => negb (c =? newline)%N.

Inductive regex : Type :=
| Bol
| Eol
| Lookahead (r : regex)
| Class (c : charset)
| MinRepeat (lo : nat) (c : charset)
| Seq (r1 r2 : regex).

Fixpoint repeat_from (c : charset) (k : nat -> list N -> bool)
         (lo : nat) (pos : nat) (s : list N) {struct s} : bool :=
  match s with
  | [] => match lo with O => k pos [] | S _ => false end
  | a :: s' =>
      match lo with
      | O => (c a && repeat_from c k O (S pos) s') || k pos s
      | S lo' => c a && repeat_from c k lo' (S pos) s'
      end
  end.

Fixpoint accept (r : regex) (pos : nat) (s : list N)
         (k : nat -> list N -> bool) : bool :=
  match r with
  | Bol => (pos =? 0)%nat && k pos s
  | Eol =>
      match s with
      | [] => k pos s
      | [c] => (c =? newline)%N && k pos s
      | _ => false
      end
  | Lookahead r' => accept r' pos s (fun _ _ => true) && k pos s
  | Class c =>
      match s with
      | a :: s' => c a && k (S pos) s'
      | [] => false
      end
  | MinRepeat lo c => repeat_from c k lo pos s
  | Seq r1 r2 => accept r1 pos s (fun pos' s' => accept r2 pos' s' k)
  end.

Definition re_match (r : regex) (s : list N) : bool :=
  accept r 0 s (fun _ _ => true).

Definition pattern : regex :=
  fold_right Seq Eol
    [ Bol;
      Lookahead (Seq (MinRepeat 0 dot) (Class letter));
      Lookahead (Seq (MinRepeat 0 dot) (Class decimal));
      Lookahead (Seq (MinRepeat 0 dot) (Class symbol));
      MinRepeat 8 allowed ].

(** [is_valid_password] on a password of any code points. *)
Definition is_valid_password (password : list N) : bool :=
  re_match pattern password.

(** At least 8 characters, each an ASCII letter, a decimal digit or one of
    the symbols, with one of each kind among them. *)
Definition policy (password : list N) : bool :=
  (8 <=? List.length password)%nat
  && forallb allowed password
  && existsb letter password && existsb decimal password
  && existsb symbol password.

(** [s] without the newline that ends it, if one does. *)
Fixpoint chomp (s : list N) : list N :=
  match s with
  | [] => []
  | c :: rest =>
      match rest with
      | [] => if (c =? newline)%N then [] else s
      | _ :: _ => c :: chomp rest
      end
  end.

End Pattern.
End Unicode.

(** The ASCII digits and the Arabic-Indic digits U+0660 to U+0669: a part
    of the table of decimal digits, to run the pattern on. *)
Definition some_decimals : N -> bool :=
  fun c => Unicode.between 48 57 c || Unicode.between 1632 1641 c.

(** [Validpass!] followed by the Arabic-Indic digit one. *)
Definition arabic_indic_password : list N :=
  (codes "Validpass!" ++ [1633%N])%list.

(** ** Further notions *)

(** [s] without the newline that ends it, if one does. *)
Fixpoint chomp (s : string) : string :=
  match s with
  | EmptyString => EmptyString
  | String c EmptyString => if Ascii.eqb c newline then EmptyString else s
  | String c rest => String c (chomp rest)
  end.

(** The store after a run of requests, served one after the other. *)
Definition serve_all (py_str : pyval -> list N) (db : store)
           (rs : list request) : store :=
  fold_left (serve py_str) rs db.

(** The first argument of [data_capture_args], in the order they are
    declared, that the parser rejects: a required one that is missing, or
    a coordinate that is not a float. *)
Definition first_rejected (req : data_capture_request) : option string :=
  match float_value (req_latitude req), float_value (req_longitude req),
        text_value (req_isp req), text_value (req_os req) with
  | Some _, Some _, Some _, Some _ => None
  | Some _, Some _, Some _, None => Some "os"
  | Some _, Some _, None, _ => Some "isp"
  | Some _, None, _, _ => Some "longitude"
  | None, _, _, _ => Some "latitude"
  end.

(** Requests that follow alice's registration. *)
Definition bob : user_request := credentials "bob" "Other2Pass?".

(** A body with a NaN latitude, a negative zero longitude and a null
    isp. *)
Definition odd_body : data_capture_request :=
  {| req_latitude := FloatField PrimFloat.nan;
     req_longitude := FloatField (- 0)%float;
     req_isp := NullText;
     req_os := Text "Android";
     req_keystroke_dynamics := None;
     req_mouse_movement_patterns := None;
     req_touch_interaction_patterns := None;
     req_sensor_data := None |}.

(** The store after alice has registered and submitted one capture. *)
Definition alice_captured : store :=
  snd (DataCapture_post str morning 1 (sample (Some a_is_1))
                        alice_registered).

Definition busy_day : list request :=
  [ Register morning bob;
    Capture morning 1 (sample (Some a_is_1));
    StopCapture 1;
    Login alice ].

(** * Properties *)

Local Open Scope list_scope.

(** ** The password pattern *)

Lemma repeat_from_spec (c : charset) (k : nat -> list ascii -> bool)
      (s : list ascii) :
  forall lo pos,
    repeat_from c k lo pos s = true <->
    exists pre post,
      s = (pre ++ post)%list /\ (lo <= List.length pre)%nat
      /\ forallb c pre = true /\ k (pos + List.length pre)%nat post = true.
Proof.
  induction s as [|a s IH]; intros lo pos; simpl.
  - destruct lo; split.
    + intros H. exists [], []. simpl. rewrite Nat.add_0_r. auto.
    + intros (pre & post & E & _ & _ & H).
      symmetry in E. apply app_eq_nil in E as [-> ->].
      simpl in H. now rewrite Nat.add_0_r in H.
    + discriminate.
    + intros (pre & post & E & L & _).
      symmetry in E. apply app_eq_nil in E as [-> _]. simpl in L. lia.
  - destruct lo.
    + rewrite orb_true_iff, andb_true_iff, IH. split.
      * intros [[Ha (pre & post & -> & L & F & H)] | H].
        -- exists (a :: pre), post. simpl. rewrite Ha, F.
           rewrite Nat.add_succ_r. repeat split; auto; lia.
        -- exists [], (a :: s). simpl. rewrite Nat.add_0_r. auto.
      * intros (pre & post & E & _ & F & H). destruct pre as [|b pre].
        -- right. simpl in E, H. subst post. now rewrite Nat.add_0_r in H.
        -- left. simpl in E, F, H. injection E as <- ->.
           apply andb_true_iff in F as [Ha F]. split; [exact Ha|].
           exists pre, post. rewrite Nat.add_succ_r in H.
           repeat split; auto; lia.
    + rewrite andb_true_iff, IH. split.
      * intros [Ha (pre & post & -> & L & F & H)].
        exists (a :: pre), post. simpl. rewrite Ha, F.
        rewrite Nat.add_succ_r. repeat split; auto; lia.
      * intros (pre & post & E & L & F & H). destruct pre as [|b pre].
        -- simpl in L. lia.
        -- simpl in E, F, H, L. injection E as <- ->.
           apply andb_true_iff in F as [Ha F]. split; [exact Ha|].
           exists pre, post. rewrite Nat.add_succ_r in H.
           repeat split; auto; lia.
Qed.

Lemma some_char_spec (X : charset) (pos : nat) (s : list ascii) :
  accept (Seq (MinRepeat 0 dot) (Class X)) pos s (fun _ _ => true) = true <->
  exists pre a post,
    s = (pre ++ a :: post)%list /\ forallb dot pre = true /\ X a = true.
Proof.
  simpl. rewrite repeat_from_spec. split.
  - intros (pre & post & -> & _ & F & H). destruct post as [|a post].
    + discriminate.
    + apply andb_true_iff in H as [Ha _]. now exists pre, a, post.
  - intros (pre & a & post & -> & F & Ha).
    exists pre, (a :: post). rewrite Ha. repeat split; auto; lia.
Qed.

Lemma allowed_not_newline (c : ascii) : allowed c = true -> dot c = true.
Proof.
  intros H. unfold dot. destruct (Ascii.eqb_spec c newline) as [-> | _].
  - discriminate H.
  - reflexivity.
Qed.

Lemma allowed_all_dot (cs : list ascii) :
  forallb allowed cs = true -> forallb dot cs = true.
Proof.
  induction cs as [|c cs IH]; simpl; [reflexivity|].
  rewrite !andb_true_iff. intros [Hc H]. auto using allowed_not_newline.
Qed.

(** A look-ahead for a class that excludes the newline sees the same as a
    search of the run of allowed characters, whether or not one newline
    follows the run. *)
Lemma lookahead_in_run (X : charset) (run tail : list ascii) :
  X newline = false ->
  forallb allowed run = true ->
  tail = [] \/ tail = [newline] ->
  accept (Seq (MinRepeat 0 dot) (Class X)) 0 (run ++ tail)
         (fun _ _ => true) = true <->
  existsb X run = true.
Proof.
  intros Xnl Hrun Htail. rewrite some_char_spec, existsb_exists. split.
  - intros (pre & a & post & E & _ & Ha). exists a. split; [|exact Ha].
    assert (Hin : In a (run ++ tail)) by (rewrite E; apply in_elt).
    apply in_app_or in Hin as [Hin | Hin]; [exact Hin|].
    destruct Htail as [-> | ->]; simpl in Hin.
    + contradiction.
    + destruct Hin as [<- | []]. congruence.
  - intros (a & Hin & Ha). apply in_split in Hin as (l1 & l2 & ->).
    exists l1, a, (l2 ++ tail)%list. rewrite <- app_assoc. simpl.
    repeat split; auto.
    apply allowed_all_dot. rewrite forallb_app in Hrun.
    now apply andb_true_iff in Hrun as [H1 _].
Qed.

Lemma pattern_spec (cs : list ascii) :
  accept pattern 0 cs (fun _ _ => true) = true <->
  exists run tail,
    cs = (run ++ tail)%list /\ (tail = [] \/ tail = [newline])
    /\ policy_chars run = true.
Proof.
  unfold pattern, seq. cbn [fold_right].
  cbn [accept]. change (0 =? 0)%nat with true. cbn [andb].
  fold (accept (Seq (MinRepeat 0 dot) (Class letter)) 0 cs (fun _ _ => true)).
  fold (accept (Seq (MinRepeat 0 dot) (Class digit)) 0 cs (fun _ _ => true)).
  fold (accept (Seq (MinRepeat 0 dot) (Class symbol)) 0 cs (fun _ _ => true)).
  rewrite !andb_true_iff, repeat_from_spec. unfold policy_chars. split.
  - intros (Hl & Hd & Hs & run & tail & -> & Hlen & Hall & Hend).
    assert (Htail : tail = [] \/ tail = [newline]).
    { destruct tail as [|c [|c' tail]]; [now left | | discriminate].
      apply andb_true_iff in Hend as [Hc _].
      apply Ascii.eqb_eq in Hc. subst c. now right. }
    exists run, tail. repeat split; auto.
    apply lookahead_in_run in Hl; auto. apply lookahead_in_run in Hd; auto.
    apply lookahead_in_run in Hs; auto.
    rewrite Hall, Hl, Hd, Hs. apply Nat.leb_le in Hlen. now rewrite Hlen.
  - intros (run & tail & -> & Htail & H).
    rewrite !andb_true_iff in H. destruct H as [[[[Hlen Hall] Hl] Hd] Hs].
    repeat split; try (apply lookahead_in_run; auto; fail).
    exists run, tail. apply Nat.leb_le in Hlen. repeat split; auto.
    destruct Htail as [-> | ->]; reflexivity.
Qed.

Lemma list_ascii_of_string_app (s1 s2 : string) :
  list_ascii_of_string (s1 ++ s2)%string
  = list_ascii_of_string s1 ++ list_ascii_of_string s2.
Proof. induction s1 as [|c s1 IH]; simpl; [reflexivity | now rewrite IH]. Qed.

(** What the pattern accepts, in terms of the policy: the passwords that
    satisfy the policy, and those that do once a final newline is taken
    off. *)
Lemma is_valid_password_spec (password : string) :
  is_valid_password password = true <->
  policy password = true
  \/ exists p, password = (p ++ nl)%string /\ policy p = true.
Proof.
  unfold is_valid_password, re_match. rewrite pattern_spec.
  unfold policy. split.
  - intros (run & tail & E & [-> | ->] & H).
    + left. rewrite app_nil_r in E. now rewrite E.
    + right. exists (string_of_list_ascii run).
      rewrite list_ascii_of_string_of_list_ascii. split; [|exact H].
      rewrite <- (string_of_list_ascii_of_string password), E.
      rewrite <- (list_ascii_of_string_of_list_ascii run) at 1.
      change [newline] with (list_ascii_of_string (String newline EmptyString)).
      rewrite <- list_ascii_of_string_app.
      apply string_of_list_ascii_of_string.
  - intros [H | (p & -> & H)].
    + exists (list_ascii_of_string password), []. rewrite app_nil_r. auto.
    + exists (list_ascii_of_string p), [newline].
      rewrite list_ascii_of_string_app. auto.
Qed.

(** A password that satisfies the policy is accepted. *)
Lemma policy_is_valid (password : string) :
  policy password = true -> is_valid_password password = true.
Proof. intros H. apply is_valid_password_spec. now left. Qed.

(** ** The decoder's bound on its calls *)

Lemma expect_length (c : ascii) (s r : list ascii) :
  expect c s = Some r -> List.length s = S (List.length r).
Proof.
  destruct s as [|x s]; cbn; [discriminate|].
  destruct (Ascii.eqb x c); [|discriminate]. now intros [= ->].
Qed.

Lemma skip_ws_length (s : list ascii) :
  (List.length (skip_ws s) <= List.length s)%nat.
Proof.
  induction s as [|c s IH]; cbn [skip_ws List.length]; [lia|].
  destruct (is_ws c); cbn [List.length]; lia.
Qed.

Lemma starts_with_length (w s r : list ascii) :
  starts_with w s = Some r ->
  List.length s = (List.length w + List.length r)%nat.
Proof.
  revert s. induction w as [|c w IH]; intros s; cbn.
  - now intros [= ->].
  - destruct s as [|x s]; [discriminate|].
    destruct (Ascii.eqb c x); [|discriminate].
    intros H. apply IH in H. cbn. lia.
Qed.

Lemma span_digits_length (s ds r : list ascii) :
  span_digits s = (ds, r) ->
  List.length s = (List.length ds + List.length r)%nat.
Proof.
  revert ds r. induction s as [|c s IH]; intros ds r; cbn.
  - now intros [= <- <-].
  - destruct (digit c).
    + destruct (span_digits s) as [ds' r'] eqn:E. intros [= <- <-].
      cbn. now rewrite (IH _ _ eq_refl).
    + now intros [= <- <-].
Qed.

Ltac break :=
  repeat match goal with
    | H : context [match ?x with _ => _ end] |- _ => destruct x eqn:?
    end;
  try discriminate.

Ltac lengths :=
  repeat match goal with
    | H : expect _ _ = Some _ |- _ => apply expect_length in H
    | H : starts_with _ _ = Some _ |- _ => apply starts_with_length in H
    | H : span_digits _ = (_, _) |- _ => apply span_digits_length in H
    | H : (_, _) = (_, _) |- _ => inversion H; clear H; subst
    end.

Lemma scan_units_shorter (n : nat) :
  forall s us r,
    (List.length s <= n)%nat ->
    scan_units s = Some (us, r) ->
    (List.length r < List.length s)%nat.
Proof.
  induction n as [|n IH]; intros s us r Hn H.
  - destruct s; [discriminate | cbn in Hn; lia].
  - destruct s as [|c s]; [discriminate|]. cbn in H, Hn.
    destruct (Ascii.eqb c dquote).
    { injection H as <- <-. cbn. lia. }
    destruct (Ascii.eqb c backslash).
    + destruct s as [|e s]; [discriminate|].
      destruct (Ascii.eqb e "u").
      * destruct s as [|h1 [|h2 [|h3 [|h4 s]]]]; try discriminate.
        destruct (decode_uXXXX h1 h2 h3 h4); [|discriminate].
        destruct (scan_units s) as [[us' r']|] eqn:E; [|discriminate].
        injection H as <- <-. apply IH in E; cbn in *; lia.
      * destruct (backslash_decode e); [|discriminate].
        destruct (scan_units s) as [[us' r']|] eqn:E; [|discriminate].
        injection H as <- <-. apply IH in E; cbn in *; lia.
    + destruct (N_of_ascii c <? 32)%N; [discriminate|].
      destruct (scan_units s) as [[us' r']|] eqn:E; [|discriminate].
      injection H as <- <-. apply IH in E; cbn in *; lia.
Qed.

Lemma scanstring_shorter (s : list ascii) (str : list N) (r : list ascii) :
  scanstring s = Some (str, r) -> (List.length r < List.length s)%nat.
Proof.
  unfold scanstring. destruct (scan_units s) as [[us r']|] eqn:E;
    [|discriminate].
  intros [= _ <-]. now apply (scan_units_shorter (n := List.length s)) in E.
Qed.

Lemma match_number_shorter (s : list ascii) (v : pyval) (r : list ascii) :
  match_number s = Some (v, r) -> (List.length r < List.length s)%nat.
Proof.
  unfold match_number. intros H. break;
    injection H as <- <-; lengths; cbn [List.length] in *; lia.
Qed.

Lemma scan_literal_shorter (s : list ascii) (v : pyval) (r : list ascii) :
  scan_literal s = Some (v, r) -> (List.length r < List.length s)%nat.
Proof.
  unfold scan_literal. intros H. break;
    first [ injection H as ->; eauto using match_number_shorter
          | injection H as <- <-; lengths;
            cbn [List.length list_ascii_of_string] in *; lia ].
Qed.

(** Whatever the decoder reads, it reads at least one character. *)
Lemma scan_shorter (fuel : nat) :
  (forall s v r,
      scan_once fuel s = Some (v, r) -> (List.length r < List.length s)%nat)
  /\ (forall s vs r,
         array_items fuel s = Some (vs, r) ->
         (List.length r < List.length s)%nat)
  /\ (forall s ps r,
         object_items fuel s = Some (ps, r) ->
         (List.length r < List.length s)%nat).
Proof.
  induction fuel as [|fuel (IHv & IHa & IHo)];
    [repeat split; discriminate|].
  repeat split.
  - intros s v r H. cbn [scan_once] in H.
    destruct (expect dquote s) as [s'|] eqn:Eq.
    { destruct (scanstring s') as [[str rest]|] eqn:Es; [|discriminate].
      injection H as <- <-. apply scanstring_shorter in Es.
      apply expect_length in Eq. lia. }
    destruct (expect "{" s) as [s'|] eqn:Eo.
    { apply expect_length in Eo. pose proof (skip_ws_length s').
      destruct (expect "}" (skip_ws s')) as [rest|] eqn:Ec.
      - injection H as <- <-. apply expect_length in Ec. lia.
      - destruct (object_items fuel (skip_ws s')) as [[ps rest]|] eqn:Ei;
          [|discriminate].
        injection H as <- <-. apply IHo in Ei. lia. }
    destruct (expect "[" s) as [s'|] eqn:Ea.
    { apply expect_length in Ea. pose proof (skip_ws_length s').
      destruct (expect "]" (skip_ws s')) as [rest|] eqn:Ec.
      - injection H as <- <-. apply expect_length in Ec. lia.
      - destruct (array_items fuel (skip_ws s')) as [[vs rest]|] eqn:Ei;
          [|discriminate].
        injection H as <- <-. apply IHa in Ei. lia. }
    now apply scan_literal_shorter in H.
  - intros s vs r H. cbn [array_items] in H.
    destruct (scan_once fuel s) as [[value s1]|] eqn:Ev; [|discriminate].
    apply IHv in Ev. pose proof (skip_ws_length s1).
    destruct (expect "]" (skip_ws s1)) as [rest|] eqn:Ec.
    { injection H as <- <-. apply expect_length in Ec. lia. }
    destruct (expect "," (skip_ws s1)) as [s2|] eqn:Em; [|discriminate].
    apply expect_length in Em. pose proof (skip_ws_length s2).
    destruct (array_items fuel (skip_ws s2)) as [[values rest]|] eqn:Ei;
      [|discriminate].
    injection H as <- <-. apply IHa in Ei. lia.
  - intros s ps r H. cbn [object_items] in H.
    destruct (expect dquote s) as [s0|] eqn:Eq; [|discriminate].
    apply expect_length in Eq.
    destruct (scanstring s0) as [[key s1]|] eqn:Es; [|discriminate].
    apply scanstring_shorter in Es. pose proof (skip_ws_length s1).
    destruct (expect ":" (skip_ws s1)) as [s2|] eqn:Ecol; [|discriminate].
    apply expect_length in Ecol. pose proof (skip_ws_length s2).
    destruct (scan_once fuel (skip_ws s2)) as [[value s3]|] eqn:Ev;
      [|discriminate].
    apply IHv in Ev. pose proof (skip_ws_length s3).
    destruct (expect "}" (skip_ws s3)) as [rest|] eqn:Ec.
    { injection H as <- <-. apply expect_length in Ec. lia. }
    destruct (expect "," (skip_ws s3)) as [s4|] eqn:Em; [|discriminate].
    apply expect_length in Em. pose proof (skip_ws_length s4).
    destruct (object_items fuel (skip_ws s4)) as [[pairs rest]|] eqn:Ei;
      [|discriminate].
    injection H as <- <-. apply IHo in Ei. lia.
Qed.

(** Past twice the length of the text, more fuel changes nothing. *)
Lemma enough_fuel (fuel : nat) :
  (forall s fuel',
      (2 * List.length s < fuel)%nat -> (fuel <= fuel')%nat ->
      scan_once fuel' s = scan_once fuel s)
  /\ (forall s fuel',
         (2 * List.length s + 1 < fuel)%nat -> (fuel <= fuel')%nat ->
         array_items fuel' s = array_items fuel s)
  /\ (forall s fuel',
         (2 * List.length s + 1 < fuel)%nat -> (fuel <= fuel')%nat ->
         object_items fuel' s = object_items fuel s).
Proof.
  induction fuel as [|fuel (IHv & IHa & IHo)];
    [repeat split; intros; lia|].
  repeat split; intros s [|fuel'] Hlen Hle; try lia.
  - cbn [scan_once].
    destruct (expect dquote s) as [s'|]; [reflexivity|].
    destruct (expect "{" s) as [s'|] eqn:Eo.
    { apply expect_length in Eo. pose proof (skip_ws_length s').
      rewrite (IHo (skip_ws s') fuel') by lia. reflexivity. }
    destruct (expect "[" s) as [s'|] eqn:Ea; [|reflexivity].
    apply expect_length in Ea. pose proof (skip_ws_length s').
    rewrite (IHa (skip_ws s') fuel') by lia. reflexivity.
  - cbn [array_items]. rewrite (IHv s fuel') by lia.
    destruct (scan_once fuel s) as [[value s1]|] eqn:Ev; [|reflexivity].
    apply (proj1 (scan_shorter fuel)) in Ev. pose proof (skip_ws_length s1).
    destruct (expect "]" (skip_ws s1)); [reflexivity|].
    destruct (expect "," (skip_ws s1)) as [s2|] eqn:Em; [|reflexivity].
    apply expect_length in Em. pose proof (skip_ws_length s2).
    rewrite (IHa (skip_ws s2) fuel') by lia. reflexivity.
  - cbn [object_items].
    destruct (expect dquote s) as [s0|] eqn:Eq; [|reflexivity].
    apply expect_length in Eq.
    destruct (scanstring s0) as [[key s1]|] eqn:Es; [|reflexivity].
    apply scanstring_shorter in Es. pose proof (skip_ws_length s1).
    destruct (expect ":" (skip_ws s1)) as [s2|] eqn:Ecol; [|reflexivity].
    apply expect_length in Ecol. pose proof (skip_ws_length s2).
    rewrite (IHv (skip_ws s2) fuel') by lia.
    destruct (scan_once fuel (skip_ws s2)) as [[value s3]|] eqn:Ev;
      [|reflexivity].
    apply (proj1 (scan_shorter fuel)) in Ev. pose proof (skip_ws_length s3).
    destruct (expect "}" (skip_ws s3)); [reflexivity|].
    destruct (expect "," (skip_ws s3)) as [s4|] eqn:Em; [|reflexivity].
    apply expect_length in Em. pose proof (skip_ws_length s4).
    rewrite (IHo (skip_ws s4) fuel') by lia. reflexivity.
Qed.

(** The decoder's verdict on a text does not depend on the bound:
    [json_loads] is the decoder run with any fuel past its own. *)
Lemma json_loads_any_fuel (s : string) (fuel : nat) :
  let cs := skip_ws (list_ascii_of_string s) in
  (2 * List.length cs < fuel)%nat ->
  json_loads s
  = match scan_once fuel cs with
    | Some (obj, rest) =>
        match skip_ws rest with
        | [] => Some obj
        | _ :: _ => None
        end
    | None => None
    end.
Proof.
  intros cs Hfuel. unfold json_loads. fold cs.
  now rewrite <- (proj1 (enough_fuel (S (2 * List.length cs))) cs fuel)
    by lia.
Qed.

(** The decoder and the formatters on a few texts. *)

Example loads_object :
  json_loads a_is_1 = Some (PyDict [(codes "a", PyInt 1)]).
Proof. reflexivity. Qed.

Example loads_nested :
  json_loads " [[1 , -2.5e3], true, null, {}] "
  = Some (PyList [PyList [PyInt 1; PyFloat "-2.5e3"];
                  PyBool true; PyNone; PyDict []]).
Proof. reflexivity. Qed.

Example loads_trailing_comma : json_loads "[1,]" = None.
Proof. reflexivity. Qed.

Example loads_leading_zero : json_loads "01" = None.
Proof. reflexivity. Qed.

Example loads_extra_data : json_loads "true false" = None.
Proof. reflexivity. Qed.

Example loads_escape :
  json_loads (q ++ "a\u00e9\n" ++ q)%string = Some (PyStr [97; 233; 10]%N).
Proof. reflexivity. Qed.

Example str_of_dict :
  str (PyDict [(codes "a", PyList [PyInt (-1); PyBool false; PyNone])])
  = codes "{'a': [-1, False, None]}".
Proof. reflexivity. Qed.

Example isoformat_morning : isoformat morning = "2024-03-09T07:05:00.000120".
Proof. reflexivity. Qed.

(** ** Stepping through the handlers *)

Ltac run :=
  unfold RegisterUser_post, LoginUser_post, StopDataCapture_post,
    DataCapture_post, GetUserData_get, user_args_parse_args,
    data_capture_args_parse_args, required_float, required,
    query_user_get, query_user_first, query_captures_all, add_user,
    add_data_capture, loads_if_given, abort_if, abort, raise, bind, ret,
    credentials in *;
  cbn [req_username req_password user_args.username user_args.password
       fst snd is_some negb] in *.

Lemma find_app {A} (p : A -> bool) (l1 l2 : list A) :
  find p (l1 ++ l2)
  = match find p l1 with Some x => Some x | None => find p l2 end.
Proof.
  induction l1 as [|x l1 IH]; simpl; [reflexivity|].
  destruct (p x); [reflexivity | exact IH].
Qed.

Lemma find_username (db : store) (name : string) :
  is_some (find (fun u => String.eqb (UserModel.username u) name) (users db))
  = true <-> username_taken db name.
Proof.
  unfold username_taken, usernames. rewrite in_map_iff.
  destruct (find _ (users db)) as [u|] eqn:E; simpl; split.
  - intros _. apply find_some in E as [Hin Heq].
    apply String.eqb_eq in Heq. now exists u.
  - reflexivity.
  - discriminate.
  - intros (u & Hname & Hin).
    apply (find_none _ _ E) in Hin. rewrite Hname, String.eqb_refl in Hin.
    discriminate.
Qed.



(** What registration does, case by case. *)
Lemma RegisterUser_post_cases (now : datetime) (username password : string)
      (db : store) :
  RegisterUser_post now (credentials username password) db
  = if is_some (find (fun u => String.eqb (UserModel.username u) username)
                     (users db))
    then (Abort 409 (Message "Username already exists"), db)
    else if is_valid_password password
    then let user :=
           {| UserModel.id := next_id (map UserModel.id (users db));
              UserModel.username := username;
              UserModel.password := password;
              UserModel.created_at := now |} in
         (Val (user, 201),
          {| users := users db ++ [user]; captures := captures db |})
    else (Abort 400 (Message weak_password), db).
Proof.
  run. destruct (find _ (users db)); [reflexivity|]. simpl.
  destruct (is_valid_password password); reflexivity.
Qed.

(** ** Registration and login *)



(** C10. Registration looks for the username before it looks at the
    password: when the username is taken the answer is 409 and the store
    is left as it was, whatever the password, and so also for a password
    the pattern rejects. *)
Theorem duplicate_checked_before_password (db : store) (now : datetime)
        (username password : string) :
  username_taken db username ->
  RegisterUser_post now (credentials username password) db
  = (Abort 409 (Message "Username already exists"), db)
  /\ status_of (fst (RegisterUser_post now (credentials username password) db))
     <> 400.
Proof.
  intros Htaken. rewrite RegisterUser_post_cases.
  apply find_username in Htaken. rewrite Htaken. split; [reflexivity|].
  simpl. discriminate.
Qed.

Lemma duplicate_checked_before_password_witness :
  RegisterUser_post morning (credentials "alice" "weak") alice_registered
  = (Abort 409 (Message "Username already exists"), alice_registered)
  /\ status_of (fst (RegisterUser_post morning (credentials "alice" "weak")
                                       alice_registered))
     <> 400.
Proof.
  apply (duplicate_checked_before_password alice_registered morning
                                           "alice" "weak").
  left. reflexivity.
Defined.

(** ** What each handler does to the store *)

Lemma RegisterUser_post_store (now : datetime) (req : user_request)
      (db : store) :
  snd (RegisterUser_post now req db) = db
  \/ exists user,
      snd (RegisterUser_post now req db)
      = {| users := users db ++ [user]; captures := captures db |}
      /\ ~ username_taken db (UserModel.username user).
Proof.
  destruct req as [[username|] [password|]];
    try (left; reflexivity).
  change {| req_username := Some username; req_password := Some password |}
    with (credentials username password).
  rewrite RegisterUser_post_cases.
  destruct (is_some (find _ (users db))) eqn:E; [now left|].
  destruct (is_valid_password password); [|now left].
  right. eexists. split; [reflexivity|]. cbn [UserModel.username].
  intros H. apply find_username in H. congruence.
Qed.

Lemma LoginUser_post_store (req : user_request) (db : store) :
  snd (LoginUser_post req db) = db.
Proof.
  destruct req as [[username|] [password|]]; try reflexivity.
  run. destruct (find _ (users db)); reflexivity.
Qed.

Lemma StopDataCapture_post_store (user_id : Z) (db : store) :
  snd (StopDataCapture_post user_id db) = db.
Proof. run. destruct (find _ (users db)); reflexivity. Qed.

Lemma query_get_exists (db : store) (user_id : Z) :
  match find (fun u => UserModel.id u =? user_id) (users db) with
  | Some user => In user (users db) /\ UserModel.id user = user_id
  | None => ~ user_exists db user_id
  end.
Proof.
  destruct (find _ (users db)) as [user|] eqn:E.
  - apply find_some in E as [Hin Heq]. apply Z.eqb_eq in Heq. auto.
  - intros (u & Hin & Hid). apply (find_none _ _ E) in Hin.
    rewrite Hid, Z.eqb_refl in Hin. discriminate.
Qed.

Lemma loads_if_given_cases (field : option string) (db : store) :
  (malformed field /\ loads_if_given field db = (Raise JSONDecodeError, db))
  \/ (~ malformed field
      /\ exists obj, loads_if_given field db = (Val obj, db)).
Proof.
  destruct field as [[|c text]|].
  - right. split; [|now exists PyNone].
    intros (t & E & Hne & _). injection E as <-. now apply Hne.
  - unfold loads_if_given.
    destruct (json_loads (String c text)) as [obj|] eqn:E.
    + right. split; [|now exists obj].
      intros (t & Et & _ & Hnone). injection Et as <-. congruence.
    + left. split; [|reflexivity]. exists (String c text).
      repeat split; auto. discriminate.
  - right. split; [|now exists PyNone]. intros (t & E & _). discriminate.
Qed.

Lemma complete_parses (req : data_capture_request) (db : store) :
  (complete req = true
   /\ first_rejected req = None
   /\ exists args,
       data_capture_args_parse_args req db = (Val args, db)
       /\ float_value (req_latitude req)
          = Some (data_capture_args.latitude args)
       /\ float_value (req_longitude req)
          = Some (data_capture_args.longitude args)
       /\ text_value (req_isp req) = Some (data_capture_args.isp args)
       /\ text_value (req_os req) = Some (data_capture_args.os args)
       /\ data_capture_args.keystroke_dynamics args
          = req_keystroke_dynamics req
       /\ data_capture_args.mouse_movement_patterns args
          = req_mouse_movement_patterns req
       /\ data_capture_args.touch_interaction_patterns args
          = req_touch_interaction_patterns req
       /\ data_capture_args.sensor_data args = req_sensor_data req)
  \/ (complete req = false
      /\ exists name,
          first_rejected req = Some name
          /\ data_capture_args_parse_args req db
             = (Abort 400 (ArgumentError name), db)).
Proof.
  destruct req as [lat lon isp os ks mm touch sensor].
  destruct lat as [| | |lat], lon as [| | |lon], isp as [| |isp],
    os as [| |os];
    try (right; split; [reflexivity | eexists; split; reflexivity]).
  all: left; split; [reflexivity|]; split; [reflexivity|];
    eexists; split; [reflexivity|]; cbn; repeat split.
Qed.

Lemma decoded_loads (field : option string) (obj : pyval) (db : store) :
  loads_if_given field db = (Val obj, db) -> obj = decoded field.
Proof.
  destruct field as [[|c text]|];
    unfold loads_if_given, decoded, ret, raise; try congruence.
  destruct (json_loads (String c text)); congruence.
Qed.

Section Service.

Variable py_str : pyval -> list N.

Lemma GetUserData_get_store (user_id : Z) (db : store) :
  snd (GetUserData_get py_str user_id db) = db.
Proof. run. destruct (find _ (users db)); reflexivity. Qed.

(** A submission leaves the store as it was or adds one capture, and the
    capture it adds carries the id of a user found in the store. *)
Lemma DataCapture_post_store (now : datetime) (user_id : Z)
      (req : data_capture_request) (db : store) :
  snd (DataCapture_post py_str now user_id req db) = db
  \/ exists c,
      snd (DataCapture_post py_str now user_id req db)
      = {| users := users db; captures := captures db ++ [c] |}
      /\ user_exists db (DataCaptureModel.user_id c).
Proof.
  unfold DataCapture_post, bind.
  destruct (complete_parses req db)
    as [(_ & _ & args & -> & _) | (_ & name & _ & ->)]; [|now left].
  unfold query_user_get, query_user_first, abort.
  pose proof (query_get_exists db user_id) as Hget.
  destruct (find _ (users db)) as [user|]; [|now left].
  destruct Hget as [Hin Hid].
  destruct (loads_if_given_cases
              (data_capture_args.touch_interaction_patterns args) db)
    as [[_ ->] | [_ [t ->]]]; [now left|].
  destruct (loads_if_given_cases (data_capture_args.sensor_data args) db)
    as [[_ ->] | [_ [s ->]]]; [now left|].
  right. eexists. split; [reflexivity|]. cbn. now exists user.
Qed.

Lemma serve_users (db : store) (r : request) :
  users (serve py_str db r) = users db
  \/ exists user,
      users (serve py_str db r) = users db ++ [user]
      /\ ~ username_taken db (UserModel.username user).
Proof.
  destruct r as [now body | body | now user_id body | user_id | user_id];
    cbn [serve].
  - destruct (RegisterUser_post_store now body db) as [-> | (u & -> & H)];
      [now left | right; now exists u].
  - rewrite LoginUser_post_store. now left.
  - destruct (DataCapture_post_store now user_id body db)
      as [-> | (c & -> & _)]; now left.
  - rewrite StopDataCapture_post_store. now left.
  - rewrite GetUserData_get_store. now left.
Qed.

(** No request removes a user. *)
Lemma serve_keeps_users (db : store) (r : request) (u : UserModel.t) :
  In u (users db) -> In u (users (serve py_str db r)).
Proof.
  intros H. destruct (serve_users db r) as [-> | (user & -> & _)];
    [exact H | apply in_or_app; now left].
Qed.

Lemma serve_captures (db : store) (r : request) :
  captures (serve py_str db r) = captures db
  \/ exists c,
      captures (serve py_str db r) = captures db ++ [c]
      /\ user_exists db (DataCaptureModel.user_id c).
Proof.
  destruct r as [now body | body | now user_id body | user_id | user_id];
    cbn [serve].
  - destruct (RegisterUser_post_store now body db) as [-> | (u & -> & H)];
      now left.
  - rewrite LoginUser_post_store. now left.
  - destruct (DataCapture_post_store now user_id body db)
      as [-> | (c & -> & H)]; [now left | right; now exists c].
  - rewrite StopDataCapture_post_store. now left.
  - rewrite GetUserData_get_store. now left.
Qed.

Lemma user_exists_serve (db : store) (r : request) (user_id : Z) :
  user_exists db user_id -> user_exists (serve py_str db r) user_id.
Proof.
  intros (u & Hin & Hid). exists u. split; [|exact Hid].
  now apply serve_keeps_users.
Qed.

(** C2. Usernames are unique in every store the service can be in, and a
    registration for a username that is taken returns 409 and leaves the
    store as it was. *)
Theorem username_unique (db : store) :
  reachable py_str db ->
  NoDup (usernames db)
  /\ forall now username password,
      username_taken db username ->
      RegisterUser_post now (credentials username password) db
      = (Abort 409 (Message "Username already exists"), db).
Proof.
  intros Hreach. split.
  - induction Hreach as [|db r _ IH]; [constructor|].
    unfold usernames in *.
    destruct (serve_users db r) as [-> | (user & -> & Hfresh)]; [exact IH|].
    rewrite map_app. cbn [map].
    apply NoDup_app; [exact IH | repeat constructor; intros [] | ].
    intros name Hin [<- | []]. now apply Hfresh.
  - intros now username password Htaken.
    rewrite RegisterUser_post_cases.
    apply find_username in Htaken. now rewrite Htaken.
Qed.

(** C7. In every store the service can be in, each capture carries the id
    of a stored user; a submission adds at most one capture, whose user id
    is that of a user in the store it is added to; and no request removes
    a user. *)
Theorem captures_reference_users (db : store) :
  reachable py_str db ->
  referential_integrity db
  /\ (forall now user_id req,
         let db' := snd (DataCapture_post py_str now user_id req db) in
         db' = db
         \/ exists c,
             db' = {| users := users db; captures := captures db ++ [c] |}
             /\ user_exists db (DataCaptureModel.user_id c))
  /\ (forall r u, In u (users db) -> In u (users (serve py_str db r))).
Proof.
  intros Hreach. split; [|split].
  - induction Hreach as [|db r _ IH]; [intros c []|].
    intros c Hin. apply user_exists_serve.
    destruct (serve_captures db r) as [E | (c' & E & Hc')];
      rewrite E in Hin; [now apply IH|].
    apply in_app_or in Hin as [Hin | [<- | []]]; [now apply IH | exact Hc'].
  - intros now user_id req. apply DataCapture_post_store.
  - intros r u. apply serve_keeps_users.
Qed.

End Service.

Lemma alice_registered_reachable : reachable str alice_registered.
Proof.
  exact (reachable_serve (Register morning alice) (reachable_empty str)).
Qed.

Lemma username_unique_witness :
  NoDup (usernames alice_registered)
  /\ RegisterUser_post morning (credentials "alice" "Other1Pass!")
                       alice_registered
     = (Abort 409 (Message "Username already exists"), alice_registered).
Proof.
  destruct (username_unique alice_registered_reachable) as [Hnodup Hdup].
  split; [exact Hnodup|]. apply Hdup. left. reflexivity.
Defined.

(** The store after alice has registered and submitted one capture. *)
Lemma alice_captured_reachable :
  reachable str
    (serve str alice_registered (Capture morning 1 (sample (Some a_is_1)))).
Proof. apply reachable_serve, alice_registered_reachable. Qed.

Lemma captures_reference_users_witness :
  referential_integrity
    (serve str alice_registered (Capture morning 1 (sample (Some a_is_1))))
  /\ In 1 (map DataCaptureModel.user_id
             (captures
                (serve str alice_registered
                       (Capture morning 1 (sample (Some a_is_1))))))
  /\ user_exists alice_registered 1.
Proof.
  destruct (captures_reference_users alice_captured_reachable) as [Href _].
  split; [exact Href|]. split.
  - left. reflexivity.
  - eexists. split; [left; reflexivity | reflexivity].
Defined.

(** ** Login *)



(** ** Stopping a capture *)

(** C8. A request to stop the capture leaves both tables as they were; for
    a user that exists it answers 200 with a message that ends in the
    username of the user with that id. *)
Theorem stop_changes_nothing (db : store) (user_id : Z) :
  snd (StopDataCapture_post user_id db) = db
  /\ (user_exists db user_id ->
      exists user,
        In user (users db) /\ UserModel.id user = user_id
        /\ fst (StopDataCapture_post user_id db)
           = Val ([("message",
                    StrValue ("Data capture stopped for user "
                                ++ UserModel.username user)%string)], 200)).
Proof.
  split; [apply StopDataCapture_post_store|].
  intros Hex. run. pose proof (query_get_exists db user_id) as Hget.
  destruct (find _ (users db)) as [user|]; [|contradiction].
  exists user. destruct Hget. auto.
Qed.

Lemma stop_changes_nothing_witness :
  snd (StopDataCapture_post 1 alice_registered) = alice_registered
  /\ exists user,
      In user (users alice_registered) /\ UserModel.id user = 1
      /\ fst (StopDataCapture_post 1 alice_registered)
         = Val ([("message",
                  StrValue ("Data capture stopped for user "
                              ++ UserModel.username user)%string)], 200).
Proof.
  destruct (stop_changes_nothing alice_registered 1) as [Hsame Hmsg].
  split; [exact Hsame|]. apply Hmsg.
  eexists. split; [left; reflexivity | reflexivity].
Defined.

(** ** Data capture and retrieval *)

Section Captures.

Variable py_str : pyval -> list N.

(** C6, as the code has it.  For a user id that SQLite holds and no
    stored user has, the stop and the retrieval handlers answer 404, and
    the submission handler answers 404 when the body passes the request
    parser; the parser runs before the user is looked up, so a body it
    rejects is answered 400.  None of the three changes the store. *)
Theorem unknown_user_not_found (db : store) (user_id : Z) :
  user_id <= sqlite_max_integer ->
  ~ user_exists db user_id ->
  StopDataCapture_post user_id db = (Abort 404 (Message "User not found"), db)
  /\ GetUserData_get py_str user_id db
     = (Abort 404 (Message "User not found"), db)
  /\ forall now req,
      snd (DataCapture_post py_str now user_id req db) = db
      /\ (complete req = true ->
          fst (DataCapture_post py_str now user_id req db)
          = Abort 404 (Message "User not found"))
      /\ (complete req = false ->
          status_of (fst (DataCapture_post py_str now user_id req db)) = 400).
Proof.
  intros _ Hno. pose proof (query_get_exists db user_id) as Hget.
  split; [|split].
  - run. destruct (find _ (users db)); [|reflexivity].
    exfalso. apply Hno. eexists; eauto.
  - run. destruct (find _ (users db)); [|reflexivity].
    exfalso. apply Hno. eexists; eauto.
  - intros now req. unfold DataCapture_post, bind.
    destruct (complete_parses req db)
      as [(Hc & _ & args & -> & _) | (Hc & name & _ & ->)]; rewrite Hc.
    + unfold query_user_get, query_user_first, abort.
      destruct (find _ (users db)).
      * exfalso. apply Hno. eexists; eauto.
      * repeat split. discriminate.
    + repeat split. discriminate.
Qed.

(** C4, as the code has it.  A submission for an existing user whose
    touch_interaction_patterns or sensor_data is given, is not empty and
    is not a JSON document does not succeed and leaves the store as it
    was: no capture is added.  (An empty field is taken as absent.) *)
Theorem malformed_json_not_stored (db : store) (now : datetime)
        (user_id : Z) (req : data_capture_request) :
  user_exists db user_id ->
  malformed (req_touch_interaction_patterns req)
  \/ malformed (req_sensor_data req) ->
  snd (DataCapture_post py_str now user_id req db) = db
  /\ forall body status,
      fst (DataCapture_post py_str now user_id req db) <> Val (body, status).
Proof.
  intros _ Hbad. unfold DataCapture_post, bind.
  destruct (complete_parses req db)
    as [(_ & _ & args & -> & _ & _ & _ & _ & _ & _ & Ht & Hs)
       | (_ & name & _ & ->)];
    [|split; [reflexivity | discriminate]].
  unfold query_user_get, query_user_first, abort.
  destruct (find _ (users db)) as [user|];
    [|split; [reflexivity | discriminate]].
  rewrite Ht, Hs.
  destruct (loads_if_given_cases (req_touch_interaction_patterns req) db)
    as [[_ ->] | [Hgood (t & ->)]]; [split; [reflexivity | discriminate]|].
  destruct (loads_if_given_cases (req_sensor_data req) db)
    as [[_ ->] | [Hgood' (s & ->)]]; [split; [reflexivity | discriminate]|].
  destruct Hbad; contradiction.
Qed.



End Captures.

Lemma alice_exists : user_exists alice_registered 1.
Proof. eexists. split; [left; reflexivity | reflexivity]. Qed.

Lemma nobody_exists (user_id : Z) : ~ user_exists empty_store user_id.
Proof. intros (u & [] & _). Qed.

Lemma held_9999 : 9999 <= sqlite_max_integer.
Proof. apply Z.leb_le. reflexivity. Qed.

Lemma unknown_user_not_found_witness :
  StopDataCapture_post 9999 empty_store
  = (Abort 404 (Message "User not found"), empty_store)
  /\ GetUserData_get str 9999 empty_store
     = (Abort 404 (Message "User not found"), empty_store)
  /\ fst (DataCapture_post str morning 9999 (sample None) empty_store)
     = Abort 404 (Message "User not found").
Proof.
  destruct (unknown_user_not_found str held_9999 (@nobody_exists 9999))
    as (Hstop & Hget & Hpost).
  split; [exact Hstop|]. split; [exact Hget|].
  apply (Hpost morning (sample None)). reflexivity.
Defined.

(** C6 as it is written fails: a submission for a user id nobody has,
    with a body that lacks the required fields, is answered 400 by the
    request parser, not 404. *)
Lemma unknown_user_counterexample :
  ~ user_exists empty_store 9999
  /\ fst (DataCapture_post str morning 9999 no_fields empty_store)
     = Abort 400 (ArgumentError "latitude")
  /\ status_of (fst (DataCapture_post str morning 9999 no_fields empty_store))
     <> 404.
Proof.
  split; [apply nobody_exists|]. split; [reflexivity|].
  vm_compute. discriminate.
Qed.

Lemma not_valid_json_malformed : malformed (Some "{not valid json").
Proof.
  exists "{not valid json". split; [reflexivity|].
  split; [discriminate | reflexivity].
Qed.

Lemma malformed_json_not_stored_witness :
  snd (DataCapture_post str morning 1 (sample (Some "{not valid json"))
                        alice_registered)
  = alice_registered
  /\ forall body status,
      fst (DataCapture_post str morning 1 (sample (Some "{not valid json"))
                            alice_registered)
      <> Val (body, status).
Proof.
  apply (malformed_json_not_stored str morning
           (sample (Some "{not valid json")) alice_exists).
  left. exact not_valid_json_malformed.
Defined.

(** C4 as it is written fails in two ways.  An empty
    touch_interaction_patterns is given and is not a JSON document, yet the
    submission is answered 201 and a capture is stored.  And for the text
    [{not valid json] the decoder's exception is not caught: the answer is
    the server error 500, no client error. *)
Lemma malformed_json_counterexample :
  user_exists alice_registered 1
  /\ json_loads "" = None
  /\ (exists record db',
         DataCapture_post str morning 1 (sample (Some "")) alice_registered
         = (Val (record, 201), db')
         /\ List.length (captures db')
            = S (List.length (captures alice_registered)))
  /\ json_loads "{not valid json" = None
  /\ DataCapture_post str morning 1 (sample (Some "{not valid json"))
                      alice_registered
     = (Raise JSONDecodeError, alice_registered)
  /\ status_of (fst (DataCapture_post str morning 1
                       (sample (Some "{not valid json")) alice_registered))
     = 500.
Proof.
  split; [apply alice_exists|]. split; [reflexivity|].
  split; [eexists _, _; split; reflexivity|].
  repeat split.
Qed.


(** What the database does to the odd values of a body shows in the
    record: a NaN comes back null, a negative zero without its sign, and
    a null isp passes the parser and stays null. *)
Example odd_values_come_back :
  exists record db',
    DataCapture_post str morning 1 odd_body alice_registered
    = (Val (record, 201), db')
    /\ data_capture_fields.latitude record = None
    /\ data_capture_fields.longitude record = Some PrimFloat.zero
    /\ data_capture_fields.isp record = None
    /\ data_capture_fields.os record = Some "Android".
Proof. eexists _, _. repeat split. Qed.


(** ** The password check of a registration *)

(** A registration for a free username is answered 201 when the pattern
    accepts the password and 400 when it does not. *)
Lemma password_checked (db : store) (now : datetime)
      (username password : string) :
  ~ username_taken db username ->
  status_of (fst (RegisterUser_post now (credentials username password) db))
  = if is_valid_password password then 201 else 400.
Proof.
  intros Hfree. rewrite RegisterUser_post_cases.
  destruct (is_some (find _ (users db))) eqn:E.
  { apply find_username in E. contradiction. }
  destruct (is_valid_password password); reflexivity.
Qed.

(** The three passwords of the specification. *)
Lemma sample_passwords :
  is_valid_password "short1!" = false
  /\ is_valid_password "alllettersnouppercasenodigit" = false
  /\ is_valid_password "Valid1Pass!" = true.
Proof. repeat split. Qed.

(** C3. The password [Valid1Pass!] followed by a newline has a character
    outside the classes of the policy, yet the pattern accepts it, since
    [$] also holds just before a final newline: the registration is
    answered 201 and the password is stored as it was sent. *)
Theorem trailing_newline_accepted :
  policy ("Valid1Pass!" ++ nl)%string = false
  /\ is_valid_password ("Valid1Pass!" ++ nl)%string = true
  /\ exists user db',
      RegisterUser_post morning
        (credentials "bob" ("Valid1Pass!" ++ nl)%string) empty_store
      = (Val (user, 201), db')
      /\ UserModel.password user = ("Valid1Pass!" ++ nl)%string.
Proof.
  split; [reflexivity|]. split; [reflexivity|].
  eexists _, _. split; reflexivity.
Qed.

(** * Further properties of the handlers *)

(** ** The accepted passwords *)

Lemma chomp_cases (s : string) :
  (exists p, s = (p ++ nl)%string /\ chomp s = p)
  \/ (chomp s = s /\ forall p, s <> (p ++ nl)%string).
Proof.
  induction s as [|c s IH].
  - right. split; [reflexivity|]. intros [|c p]; discriminate.
  - destruct s as [|c' s].
    + cbn [chomp]. destruct (Ascii.eqb_spec c newline) as [-> | Hc].
      * left. exists EmptyString. split; reflexivity.
      * right. split; [reflexivity|]. intros [|d [|d' p]]; cbn.
        -- intros [= E]. contradiction.
        -- discriminate.
        -- discriminate.
    + change (chomp (String c (String c' s)))
        with (String c (chomp (String c' s))).
      destruct IH as [(p & E & Hp) | [E Hno]].
      * left. exists (String c p). rewrite E at 1. rewrite Hp.
        split; reflexivity.
      * right. rewrite E. split; [reflexivity|].
        intros [|d p]; cbn; [discriminate|].
        intros [= _ E']. now apply (Hno p).
Qed.

Lemma policy_rejects_newline (p : string) : policy (p ++ nl)%string = false.
Proof.
  unfold policy, policy_chars. rewrite list_ascii_of_string_app.
  rewrite forallb_app. cbn [list_ascii_of_string nl forallb].
  replace (allowed newline) with false by reflexivity.
  cbn [andb]. now rewrite !andb_false_r.
Qed.

Lemma append_nl_inj (p p' : string) :
  (p ++ nl)%string = (p' ++ nl)%string -> p = p'.
Proof.
  revert p'. induction p as [|c p IH]; intros [|c' p']; cbn.
  - reflexivity.
  - destruct p'; discriminate.
  - destruct p; discriminate.
  - intros [= -> E]. f_equal. now apply IH.
Qed.

(** On the passwords of code points below 256, [is_valid_password] is the
    policy of the password with one final newline taken off. *)
Lemma accepted_after_chomp (password : string) :
  is_valid_password password = policy (chomp password).
Proof.
  apply eq_true_iff_eq. rewrite is_valid_password_spec.
  destruct (chomp_cases password) as [(p & -> & ->) | [-> Hno]].
  - rewrite policy_rejects_newline. split.
    + intros [H | (p' & E & H)]; [discriminate|].
      now rewrite (append_nl_inj _ _ E).
    + intros H. right. now exists p.
  - split; [|now left].
    intros [H | (p & E & _)]; [exact H | now apply Hno in E].
Qed.

Section UnicodePattern.

Variable decimal : N -> bool.

(** No table of decimal digits holds the newline. *)
Hypothesis newline_no_decimal : decimal Unicode.newline = false.

Lemma u_repeat_from_spec (c : Unicode.charset)
      (k : nat -> list N -> bool) (s : list N) :
  forall lo pos,
    Unicode.repeat_from c k lo pos s = true <->
    exists pre post,
      s = pre ++ post /\ (lo <= List.length pre)%nat
      /\ forallb c pre = true /\ k (pos + List.length pre)%nat post = true.
Proof.
  induction s as [|a s IH]; intros lo pos; cbn [Unicode.repeat_from].
  - destruct lo; split.
    + intros H. exists [], []. cbn. rewrite Nat.add_0_r. auto.
    + intros (pre & post & E & _ & _ & H).
      symmetry in E. apply app_eq_nil in E as [-> ->].
      cbn in H. now rewrite Nat.add_0_r in H.
    + discriminate.
    + intros (pre & post & E & L & _).
      symmetry in E. apply app_eq_nil in E as [-> _]. cbn in L. lia.
  - destruct lo.
    + rewrite orb_true_iff, andb_true_iff, IH. split.
      * intros [[Ha (pre & post & -> & L & F & H)] | H].
        -- exists (a :: pre), post. cbn. rewrite Ha, F.
           rewrite Nat.add_succ_r. repeat split; auto; lia.
        -- exists [], (a :: s). cbn. rewrite Nat.add_0_r. auto.
      * intros (pre & post & E & _ & F & H). destruct pre as [|b pre].
        -- right. cbn in E, H. subst post. now rewrite Nat.add_0_r in H.
        -- left. cbn in E, F, H. injection E as <- ->.
           apply andb_true_iff in F as [Ha F]. split; [exact Ha|].
           exists pre, post. rewrite Nat.add_succ_r in H.
           repeat split; auto; lia.
    + rewrite andb_true_iff, IH. split.
      * intros [Ha (pre & post & -> & L & F & H)].
        exists (a :: pre), post. cbn. rewrite Ha, F.
        rewrite Nat.add_succ_r. repeat split; auto; lia.
      * intros (pre & post & E & L & F & H). destruct pre as [|b pre].
        -- cbn in L. lia.
        -- cbn in E, F, H, L. injection E as <- ->.
           apply andb_true_iff in F as [Ha F]. split; [exact Ha|].
           exists pre, post. rewrite Nat.add_succ_r in H.
           repeat split; auto; lia.
Qed.

Lemma u_some_char_spec (X : Unicode.charset) (pos : nat) (s : list N) :
  Unicode.accept
    (Unicode.Seq (Unicode.MinRepeat 0 Unicode.dot) (Unicode.Class X))
    pos s (fun _ _ => true) = true <->
  exists pre a post,
    s = pre ++ a :: post /\ forallb Unicode.dot pre = true /\ X a = true.
Proof.
  cbn [Unicode.accept]. rewrite u_repeat_from_spec. split.
  - intros (pre & post & -> & _ & F & H). destruct post as [|a post].
    + discriminate.
    + apply andb_true_iff in H as [Ha _]. now exists pre, a, post.
  - intros (pre & a & post & -> & F & Ha).
    exists pre, (a :: post). rewrite Ha. repeat split; auto; lia.
Qed.

Lemma u_newline_not_allowed :
  Unicode.allowed decimal Unicode.newline = false.
Proof.
  unfold Unicode.allowed. now rewrite newline_no_decimal.
Qed.

Lemma u_allowed_all_dot (cs : list N) :
  forallb (Unicode.allowed decimal) cs = true ->
  forallb Unicode.dot cs = true.
Proof.
  induction cs as [|c cs IH]; cbn [forallb]; [reflexivity|].
  rewrite !andb_true_iff. intros [Hc H]. split; [|auto].
  unfold Unicode.dot. destruct (N.eqb_spec c Unicode.newline) as [-> | _];
    [|reflexivity].
  rewrite u_newline_not_allowed in Hc. discriminate.
Qed.

Lemma u_lookahead_in_run (X : Unicode.charset) (run tail : list N) :
  X Unicode.newline = false ->
  forallb (Unicode.allowed decimal) run = true ->
  tail = [] \/ tail = [Unicode.newline] ->
  Unicode.accept
    (Unicode.Seq (Unicode.MinRepeat 0 Unicode.dot) (Unicode.Class X))
    0 (run ++ tail) (fun _ _ => true) = true <->
  existsb X run = true.
Proof.
  intros Xnl Hrun Htail. rewrite u_some_char_spec, existsb_exists. split.
  - intros (pre & a & post & E & _ & Ha). exists a. split; [|exact Ha].
    assert (Hin : In a (run ++ tail)) by (rewrite E; apply in_elt).
    apply in_app_or in Hin as [Hin | Hin]; [exact Hin|].
    destruct Htail as [-> | ->]; cbn in Hin.
    + contradiction.
    + destruct Hin as [<- | []]. congruence.
  - intros (a & Hin & Ha). apply in_split in Hin as (l1 & l2 & ->).
    exists l1, a, (l2 ++ tail). rewrite <- app_assoc. cbn.
    repeat split; auto.
    apply u_allowed_all_dot. rewrite forallb_app in Hrun.
    now apply andb_true_iff in Hrun as [H1 _].
Qed.

Lemma u_pattern_spec (cs : list N) :
  Unicode.is_valid_password decimal cs = true <->
  exists run tail,
    cs = run ++ tail /\ (tail = [] \/ tail = [Unicode.newline])
    /\ Unicode.policy decimal run = true.
Proof.
  unfold Unicode.is_valid_password, Unicode.re_match, Unicode.pattern.
  cbn [fold_right Unicode.accept]. change (0 =? 0)%nat with true.
  cbn [andb].
  fold (Unicode.accept
          (Unicode.Seq (Unicode.MinRepeat 0 Unicode.dot)
                       (Unicode.Class Unicode.letter))
          0 cs (fun _ _ => true)).
  fold (Unicode.accept
          (Unicode.Seq (Unicode.MinRepeat 0 Unicode.dot)
                       (Unicode.Class decimal))
          0 cs (fun _ _ => true)).
  fold (Unicode.accept
          (Unicode.Seq (Unicode.MinRepeat 0 Unicode.dot)
                       (Unicode.Class Unicode.symbol))
          0 cs (fun _ _ => true)).
  rewrite !andb_true_iff, u_repeat_from_spec. unfold Unicode.policy. split.
  - intros (Hl & Hd & Hs & run & tail & -> & Hlen & Hall & Hend).
    assert (Htail : tail = [] \/ tail = [Unicode.newline]).
    { destruct tail as [|c [|c' tail]]; [now left | | discriminate].
      apply andb_true_iff in Hend as [Hc _].
      apply N.eqb_eq in Hc. subst c. now right. }
    exists run, tail. repeat split; auto.
    apply u_lookahead_in_run in Hl; auto.
    apply u_lookahead_in_run in Hd; auto.
    apply u_lookahead_in_run in Hs; auto.
    rewrite Hall, Hl, Hd, Hs. apply Nat.leb_le in Hlen. now rewrite Hlen.
  - intros (run & tail & -> & Htail & H).
    rewrite !andb_true_iff in H. destruct H as [[[[Hlen Hall] Hl] Hd] Hs].
    repeat split; try (apply u_lookahead_in_run; auto; fail).
    exists run, tail. apply Nat.leb_le in Hlen. repeat split; auto.
    destruct Htail as [-> | ->]; reflexivity.
Qed.

Lemma u_chomp_cases (s : list N) :
  (exists p, s = p ++ [Unicode.newline] /\ Unicode.chomp s = p)
  \/ (Unicode.chomp s = s /\ forall p, s <> p ++ [Unicode.newline]).
Proof.
  induction s as [|c s IH].
  - right. split; [reflexivity|]. intros [|c p]; discriminate.
  - destruct s as [|c' s].
    + cbn [Unicode.chomp].
      destruct (N.eqb_spec c Unicode.newline) as [-> | Hc].
      * left. exists []. split; reflexivity.
      * right. split; [reflexivity|]. intros [|d [|d' p]]; cbn.
        -- intros [= E]. contradiction.
        -- discriminate.
        -- discriminate.
    + change (Unicode.chomp (c :: c' :: s))
        with (c :: Unicode.chomp (c' :: s)).
      destruct IH as [(p & E & Hp) | [E Hno]].
      * left. exists (c :: p). rewrite E at 1. rewrite Hp.
        split; reflexivity.
      * right. rewrite E. split; [reflexivity|].
        intros [|d p]; cbn; [discriminate|].
        intros [= _ E']. now apply (Hno p).
Qed.

Lemma u_policy_rejects_newline (p : list N) :
  Unicode.policy decimal (p ++ [Unicode.newline]) = false.
Proof.
  unfold Unicode.policy. rewrite forallb_app. cbn [forallb].
  rewrite u_newline_not_allowed. cbn [andb]. now rewrite !andb_false_r.
Qed.

(** X1. [is_valid_password] accepts a password, of any code points,
    exactly when the password with one final newline taken off has at
    least 8 characters, each an ASCII letter, a decimal digit of Unicode
    or one of [@$!%*?&], with a letter, a decimal digit and a symbol among
    them. *)
Theorem accepted_passwords (password : list N) :
  Unicode.is_valid_password decimal password
  = Unicode.policy decimal (Unicode.chomp password).
Proof.
  apply eq_true_iff_eq. rewrite u_pattern_spec.
  destruct (u_chomp_cases password) as [(p & -> & ->) | [-> Hno]].
  - split.
    + intros (run & tail & E & [-> | ->] & H).
      * rewrite app_nil_r in E. subst run.
        now rewrite u_policy_rejects_newline in H.
      * apply app_inj_tail in E as [-> _]. exact H.
    + intros H. exists p, [Unicode.newline]. auto.
  - split.
    + intros (run & tail & E & [-> | ->] & H).
      * rewrite app_nil_r in E. now subst run.
      * now apply Hno in E.
    + intros H. exists password, []. rewrite app_nil_r. auto.
Qed.

End UnicodePattern.

Lemma accepted_passwords_witness :
  Unicode.is_valid_password some_decimals arabic_indic_password = true
  /\ Unicode.policy some_decimals (Unicode.chomp arabic_indic_password)
     = true
  /\ Unicode.is_valid_password some_decimals
       (arabic_indic_password ++ [Unicode.newline]) = true
  /\ Unicode.is_valid_password some_decimals (codes "Validpass! 1") = false.
Proof.
  assert (Hnl : some_decimals Unicode.newline = false) by reflexivity.
  rewrite !(accepted_passwords some_decimals Hnl). repeat split.
Defined.

(** On the code points below 256 the decimal digits are [0-9], and there
    the pattern on code points is the pattern on [string]. *)

Lemma letter_code (c : ascii) : Unicode.letter (N_of_ascii c) = letter c.
Proof. destruct c as [[] [] [] [] [] [] [] []]; reflexivity. Qed.

Lemma symbol_code (c : ascii) : Unicode.symbol (N_of_ascii c) = symbol c.
Proof. destruct c as [[] [] [] [] [] [] [] []]; reflexivity. Qed.

Lemma newline_code (c : ascii) :
  (N_of_ascii c =? Unicode.newline)%N = Ascii.eqb c newline.
Proof. destruct c as [[] [] [] [] [] [] [] []]; reflexivity. Qed.

Lemma forallb_codes (f : N -> bool) (g : ascii -> bool) (l : list ascii) :
  (forall c, f (N_of_ascii c) = g c) ->
  forallb f (map N_of_ascii l) = forallb g l.
Proof.
  intros H. induction l as [|c l IH]; [reflexivity|].
  cbn [map forallb]. now rewrite H, IH.
Qed.

Lemma existsb_codes (f : N -> bool) (g : ascii -> bool) (l : list ascii) :
  (forall c, f (N_of_ascii c) = g c) ->
  existsb f (map N_of_ascii l) = existsb g l.
Proof.
  intros H. induction l as [|c l IH]; [reflexivity|].
  cbn [map existsb]. now rewrite H, IH.
Qed.

Lemma policy_codes (decimal : N -> bool) (cs : list ascii) :
  (forall c : ascii, decimal (N_of_ascii c) = digit c) ->
  Unicode.policy decimal (map N_of_ascii cs) = policy_chars cs.
Proof.
  intros Hdigit. unfold Unicode.policy, policy_chars. rewrite length_map.
  rewrite (forallb_codes (Unicode.allowed decimal) allowed).
  - now rewrite (existsb_codes _ _ _ letter_code),
      (existsb_codes _ _ _ Hdigit), (existsb_codes _ _ _ symbol_code).
  - intros c. unfold Unicode.allowed, allowed.
    now rewrite letter_code, symbol_code, Hdigit.
Qed.

Lemma newline_tail (tail : list ascii) :
  (map N_of_ascii tail = [] \/ map N_of_ascii tail = [Unicode.newline])
  <-> (tail = [] \/ tail = [newline]).
Proof.
  destruct tail as [|c [|c' tail]]; cbn [map]; split; intros [H | H];
    try discriminate; auto.
  - right. injection H as H. apply N.eqb_eq in H.
    rewrite newline_code in H. apply Ascii.eqb_eq in H. now subst c.
  - right. injection H as ->. reflexivity.
Qed.

(** Where the table of decimal digits is [0-9] below 256, the pattern on
    code points and the pattern on [string] accept the same passwords. *)
Lemma latin1_agrees (decimal : N -> bool) (password : string) :
  (forall c : ascii, decimal (N_of_ascii c) = digit c) ->
  Unicode.is_valid_password decimal (codes password)
  = is_valid_password password.
Proof.
  intros Hdigit.
  assert (Hnl : decimal Unicode.newline = false) by apply (Hdigit newline).
  apply eq_true_iff_eq. rewrite (u_pattern_spec decimal Hnl).
  unfold is_valid_password, re_match. rewrite pattern_spec. unfold codes.
  split.
  - intros (run' & tail' & E & Htail & H).
    apply map_eq_app in E as (run & tail & E & <- & <-).
    exists run, tail. rewrite policy_codes in H by exact Hdigit.
    apply newline_tail in Htail. auto.
  - intros (run & tail & E & Htail & H).
    exists (map N_of_ascii run), (map N_of_ascii tail).
    rewrite E, map_app, policy_codes by exact Hdigit.
    apply newline_tail in Htail. auto.
Qed.
(** ** Requests that lack a credential *)

(** X2. A registration or a login whose body lacks the username or the
    password is answered 400 by the request parser, which names the first
    argument that is missing, and the store is left as it was; the handler
    does not look at the users, so such a login is not answered 401 and
    such a registration is not answered 409. *)
Theorem credentials_required (db : store) (now : datetime)
        (req : user_request) :
  req_username req = None \/ req_password req = None ->
  let name := match req_username req with
              | None => "username"
              | Some _ => "password"
              end in
  RegisterUser_post now req db = (Abort 400 (ArgumentError name), db)
  /\ LoginUser_post req db = (Abort 400 (ArgumentError name), db).
Proof.
  destruct req as [[username|] [password|]]; cbn [req_username req_password];
    intros [H | H]; try discriminate H; split; reflexivity.
Qed.

Lemma credentials_required_witness :
  RegisterUser_post morning
    {| req_username := Some "alice"; req_password := None |} alice_registered
  = (Abort 400 (ArgumentError "password"), alice_registered)
  /\ LoginUser_post
       {| req_username := Some "alice"; req_password := None |}
       alice_registered
     = (Abort 400 (ArgumentError "password"), alice_registered).
Proof.
  apply (credentials_required alice_registered morning
           {| req_username := Some "alice"; req_password := None |}).
  right. reflexivity.
Defined.

(** ** The three outcomes of a registration *)


(** ** A registration followed by logins *)



(** ** The outcomes of a submission *)

Section Outcomes.

Variable py_str : pyval -> list N.

(** The four ways a submission ends, in the order the handler decides
    them. *)
Lemma DataCapture_post_outcome (now : datetime) (user_id : Z)
      (req : data_capture_request) (db : store) :
  (complete req = false
   /\ exists name,
       first_rejected req = Some name
       /\ DataCapture_post py_str now user_id req db
          = (Abort 400 (ArgumentError name), db))
  \/ (complete req = true /\ first_rejected req = None
      /\ ~ user_exists db user_id
      /\ DataCapture_post py_str now user_id req db
         = (Abort 404 (Message "User not found"), db))
  \/ (complete req = true /\ first_rejected req = None
      /\ user_exists db user_id
      /\ (malformed (req_touch_interaction_patterns req)
          \/ malformed (req_sensor_data req))
      /\ DataCapture_post py_str now user_id req db
         = (Raise JSONDecodeError, db))
  \/ (complete req = true /\ first_rejected req = None
      /\ user_exists db user_id
      /\ ~ malformed (req_touch_interaction_patterns req)
      /\ ~ malformed (req_sensor_data req)
      /\ exists row,
          DataCapture_post py_str now user_id req db
          = (Val (marshal_data_capture py_str row, 201),
             {| users := users db; captures := captures db ++ [row] |})
          /\ DataCaptureModel.id row
             = next_id (map DataCaptureModel.id (captures db))
          /\ DataCaptureModel.user_id row = user_id
          /\ DataCaptureModel.created_at row = now
          /\ option_map stored_coordinate (float_value (req_latitude req))
             = Some (DataCaptureModel.latitude row)
          /\ option_map stored_coordinate (float_value (req_longitude req))
             = Some (DataCaptureModel.longitude row)
          /\ text_value (req_isp req) = Some (DataCaptureModel.isp row)
          /\ text_value (req_os req) = Some (DataCaptureModel.os row)
          /\ DataCaptureModel.keystroke_dynamics row
             = req_keystroke_dynamics req
          /\ DataCaptureModel.mouse_movement_patterns row
             = req_mouse_movement_patterns req
          /\ DataCaptureModel.touch_interaction_patterns row
             = decoded (req_touch_interaction_patterns req)
          /\ DataCaptureModel.sensor_data row
             = decoded (req_sensor_data req)).
Proof.
  unfold DataCapture_post, bind.
  destruct (complete_parses req db)
    as [(Hc & Hfirst & args & -> & Hlat & Hlon & Hisp & Hos & Hks & Hmm
         & Ht & Hs)
       | (Hc & name & Hfirst & ->)];
    [|left; split; [exact Hc | now exists name]].
  right. unfold query_user_get, query_user_first, abort.
  pose proof (query_get_exists db user_id) as Hget.
  destruct (find _ (users db)) as [user|];
    [|left; repeat split; auto].
  destruct Hget as [Hin Hid]. right.
  assert (Hex : user_exists db user_id) by (now exists user).
  rewrite Ht, Hs.
  destruct (loads_if_given_cases (req_touch_interaction_patterns req) db)
    as [[Hbad ->] | [Hgood (t & Et)]];
    [left; repeat split; auto|].
  rewrite Et. apply decoded_loads in Et.
  destruct (loads_if_given_cases (req_sensor_data req) db)
    as [[Hbad ->] | [Hgood' (s & Es)]];
    [left; repeat split; auto|].
  rewrite Es. apply decoded_loads in Es.
  right. repeat (split; [assumption|]).
  eexists. split; [reflexivity|]. cbn. subst t s.
  rewrite Hlat, Hlon. repeat split; auto.
Qed.


(** X6. The checks of a submission come in a fixed order.  A body the
    parser rejects is answered 400, naming the first rejected argument in
    the order latitude, longitude, isp, os, whoever the user and whatever
    the JSON fields.  Otherwise an id that SQLite holds and no user has is
    answered 404, whatever the JSON fields.  Otherwise, for a user that
    exists, a JSON field that is given, not empty and not a JSON document
    makes [json.loads] raise, and nothing catches the exception.  None of
    the three changes the store. *)
Theorem submission_checks_in_order (now : datetime) (user_id : Z)
        (req : data_capture_request) (db : store) :
  let r := DataCapture_post py_str now user_id req db in
  (forall name,
      first_rejected req = Some name ->
      r = (Abort 400 (ArgumentError name), db))
  /\ (first_rejected req = None ->
      user_id <= sqlite_max_integer -> ~ user_exists db user_id ->
      r = (Abort 404 (Message "User not found"), db))
  /\ (first_rejected req = None -> user_exists db user_id ->
      malformed (req_touch_interaction_patterns req)
      \/ malformed (req_sensor_data req) ->
      r = (Raise JSONDecodeError, db)).
Proof.
  cbv zeta.
  destruct (DataCapture_post_outcome now user_id req db)
    as [(_ & name & Hfirst & E) | [(_ & Hfirst & Hno & E)
       | [(_ & Hfirst & Hex & Hbad & E)
       | (_ & Hfirst & Hex & Ht & Hs & _)]]];
    (split; [|split]).
  - intros name' Hname. congruence.
  - congruence.
  - congruence.
  - congruence.
  - intros _ _ _. exact E.
  - contradiction.
  - congruence.
  - contradiction.
  - intros _ _ _. exact E.
  - congruence.
  - contradiction.
  - tauto.
Qed.

Lemma GetUserData_get_rows (user_id : Z) (db : store) :
  user_exists db user_id ->
  GetUserData_get py_str user_id db
  = (Val (map (marshal_data_capture py_str)
              (filter (owned_by user_id) (captures db)), 200), db).
Proof.
  intros Hex. pose proof (query_get_exists db user_id) as Hget. run.
  destruct (find _ (users db)) as [user|]; [|contradiction].
  destruct Hget as [_ ->]. reflexivity.
Qed.

Lemma GetUserData_get_unknown (user_id : Z) (db : store) :
  ~ user_exists db user_id ->
  GetUserData_get py_str user_id db
  = (Abort 404 (Message "User not found"), db).
Proof.
  intros Hno. pose proof (query_get_exists db user_id) as Hget. run.
  destruct (find _ (users db)) as [user|]; [|reflexivity].
  exfalso. apply Hno. exists user. exact Hget.
Qed.

(** X7. A successful submission for a user adds its record at the end of
    what the retrieval handler returns for that user, and changes the
    answer of the retrieval handler for no other user id. *)
Theorem submission_extends_retrieval (now : datetime) (user_id : Z)
        (req : data_capture_request) (db db' : store)
        (record : data_capture_fields.t) :
  DataCapture_post py_str now user_id req db = (Val (record, 201), db') ->
  (exists before,
      GetUserData_get py_str user_id db = (Val (before, 200), db)
      /\ GetUserData_get py_str user_id db'
         = (Val (before ++ [record], 200), db'))
  /\ forall other,
      other <> user_id ->
      fst (GetUserData_get py_str other db')
      = fst (GetUserData_get py_str other db).
Proof.
  intros Hpost.
  destruct (DataCapture_post_outcome now user_id req db)
    as [(_ & name & _ & E) | [(_ & _ & _ & E) | [(_ & _ & _ & _ & E)
       | (_ & _ & Hex & _ & _ & row & E & _ & Huid & _)]]];
    rewrite E in Hpost; try discriminate.
  injection Hpost as <- <-.
  assert (Hex' : forall uid,
             user_exists db uid <->
             user_exists {| users := users db;
                            captures := captures db ++ [row] |} uid)
    by (intros uid; reflexivity).
  split.
  - eexists. split; [now apply GetUserData_get_rows|].
    rewrite GetUserData_get_rows by now apply Hex'.
    cbn [captures]. rewrite filter_app, map_app. cbn [filter].
    unfold owned_by at 2. rewrite Huid, Z.eqb_refl. reflexivity.
  - intros other Hother.
    assert (Hrow : filter (owned_by other) (captures db ++ [row])
                   = filter (owned_by other) (captures db)).
    { rewrite filter_app. cbn [filter]. unfold owned_by at 2.
      rewrite Huid. apply Z.eqb_neq in Hother.
      rewrite Z.eqb_sym in Hother. rewrite Hother. apply app_nil_r. }
    assert (Hdec : user_exists db other \/ ~ user_exists db other).
    { pose proof (query_get_exists db other) as Hget.
      destruct (find _ (users db)) as [u|]; [left; now exists u | now right]. }
    destruct Hdec as [Ho | Ho].
    + rewrite !GetUserData_get_rows by (try apply Hex'; exact Ho).
      cbn [fst captures]. now rewrite Hrow.
    + rewrite !GetUserData_get_unknown by (try rewrite <- Hex'; exact Ho).
      reflexivity.
Qed.

End Outcomes.

(** ** What a run of requests keeps *)

Lemma find_prefix {A} (p : A -> bool) (l l' : list A) (x : A) :
  find p l = Some x -> find p (l ++ l') = Some x.
Proof. intros H. now rewrite find_app, H. Qed.

Lemma max_of_keys (a n : nat) :
  fold_right Z.max 0 (map Z.of_nat (List.seq a n))
  = match n with O => 0 | S _ => Z.of_nat (a + n - 1) end.
Proof.
  revert a. induction n as [|n IH]; intros a; [reflexivity|].
  cbn [List.seq map fold_right]. rewrite IH. destruct n; lia.
Qed.

Lemma next_id_of_keys (n : nat) :
  next_id (map Z.of_nat (List.seq 1 n)) = Z.of_nat (S n).
Proof. unfold next_id. rewrite max_of_keys. destruct n; lia. Qed.

Lemma NoDup_keys (n : nat) : NoDup (map Z.of_nat (List.seq 1 n)).
Proof.
  generalize 1%nat. induction n as [|n IH]; intros a; cbn [List.seq map];
    constructor; [|apply IH].
  rewrite in_map_iff. intros (x & E & Hin).
  apply Nat2Z.inj in E. subst x. apply in_seq in Hin. lia.
Qed.

Section Runs.

Variable py_str : pyval -> list N.

(** What one request does to the store. *)
Lemma serve_cases (db : store) (r : request) :
  serve py_str db r = db
  \/ (exists now body user,
         r = Register now body
         /\ serve py_str db r
            = {| users := users db ++ [user]; captures := captures db |}
         /\ UserModel.id user = next_id (map UserModel.id (users db)))
  \/ (exists now user_id body row,
         r = Capture now user_id body
         /\ serve py_str db r
            = {| users := users db; captures := captures db ++ [row] |}
         /\ DataCaptureModel.id row
            = next_id (map DataCaptureModel.id (captures db))).
Proof.
  destruct r as [now body | body | now user_id body | user_id | user_id];
    cbn [serve].
  - destruct body as [[username|] [password|]]; try (left; reflexivity).
    change {| req_username := Some username; req_password := Some password |}
      with (credentials username password).
    rewrite RegisterUser_post_cases.
    destruct (is_some (find _ (users db))); [now left|].
    destruct (is_valid_password password); [|now left].
    right. left. eexists now, _, _. repeat split.
  - left. apply LoginUser_post_store.
  - destruct (DataCapture_post_outcome py_str now user_id body db)
      as [(_ & name & _ & ->) | [(_ & _ & _ & ->) | [(_ & _ & _ & _ & ->)
         | (_ & _ & _ & _ & _ & row & -> & Hid & _)]]];
      try (left; reflexivity).
    right. right. now exists now, user_id, body, row.
  - left. apply StopDataCapture_post_store.
  - left. apply GetUserData_get_store.
Qed.

(** X8. No request deletes or rewrites a row, and none adds more than one:
    a request leaves both tables as they were, or appends one user, or
    appends one capture.  Only a registration appends a user and only a
    submission appends a capture, so that a login, a stop request and a
    retrieval never change the store. *)
Theorem requests_only_append (db : store) (r : request) :
  (users (serve py_str db r) = users db
   /\ captures (serve py_str db r) = captures db)
  \/ (exists user now body,
         users (serve py_str db r) = users db ++ [user]
         /\ captures (serve py_str db r) = captures db
         /\ r = Register now body)
  \/ (exists row now user_id body,
         captures (serve py_str db r) = captures db ++ [row]
         /\ users (serve py_str db r) = users db
         /\ r = Capture now user_id body).
Proof.
  destruct (serve_cases db r)
    as [-> | [(now & body & user & -> & -> & _)
       | (now & user_id & body & row & -> & -> & _)]].
  - now left.
  - right. left. now exists user, now, body.
  - right. right. now exists row, now, user_id, body.
Qed.

(** X9. The keys count the rows: in every store the service can be in, the
    users have the ids 1, 2, ... in the order they registered, and the
    captures have the ids 1, 2, ... in the order they were submitted.  So
    no two users share an id, and no two captures do. *)
Theorem keys_count_rows (db : store) :
  reachable py_str db ->
  map UserModel.id (users db)
  = map Z.of_nat (List.seq 1 (List.length (users db)))
  /\ map DataCaptureModel.id (captures db)
     = map Z.of_nat (List.seq 1 (List.length (captures db)))
  /\ NoDup (map UserModel.id (users db))
  /\ NoDup (map DataCaptureModel.id (captures db)).
Proof.
  intros Hreach.
  assert (Hkeys :
    map UserModel.id (users db)
    = map Z.of_nat (List.seq 1 (List.length (users db)))
    /\ map DataCaptureModel.id (captures db)
       = map Z.of_nat (List.seq 1 (List.length (captures db)))).
  { induction Hreach as [|db r _ [IHu IHc]]; [split; reflexivity|].
    destruct (serve_cases db r)
      as [-> | [(now & body & user & _ & -> & Hid)
         | (now & user_id & body & row & _ & -> & Hid)]];
      cbn [users captures]; [now split | |].
    - split; [|exact IHc].
      rewrite map_app, length_app, seq_app, map_app.
      cbn [map List.length List.seq]. f_equal; [exact IHu|]. f_equal.
      rewrite Hid, IHu. apply next_id_of_keys.
    - split; [exact IHu|].
      rewrite map_app, length_app, seq_app, map_app.
      cbn [map List.length List.seq]. f_equal; [exact IHc|]. f_equal.
      rewrite Hid, IHc. apply next_id_of_keys. }
  destruct Hkeys as [Hu Hc]. repeat split; auto.
  - rewrite Hu. apply NoDup_keys.
  - rewrite Hc. apply NoDup_keys.
Qed.

Lemma serve_all_users (rs : list request) :
  forall db, exists more, users (serve_all py_str db rs) = users db ++ more.
Proof.
  induction rs as [|r rs IH]; intros db; cbn [serve_all fold_left].
  - exists []. now rewrite app_nil_r.
  - destruct (IH (serve py_str db r)) as [more E]. fold (serve_all py_str) in E.
    unfold serve_all in *. rewrite E.
    destruct (serve_users py_str db r) as [-> | (user & -> & _)].
    + now exists more.
    + exists (user :: more). now rewrite <- app_assoc.
Qed.

Lemma serve_all_captures (rs : list request) :
  forall db,
  exists more, captures (serve_all py_str db rs) = captures db ++ more.
Proof.
  induction rs as [|r rs IH]; intros db; cbn [serve_all fold_left].
  - exists []. now rewrite app_nil_r.
  - destruct (IH (serve py_str db r)) as [more E].
    unfold serve_all in *. rewrite E.
    destruct (serve_captures py_str db r) as [-> | (row & -> & _)].
    + now exists more.
    + exists (row :: more). now rewrite <- app_assoc.
Qed.

(** X10. A login that succeeds keeps succeeding: whatever requests are
    served afterwards, the same username and password are answered 200
    with the same body. *)
Theorem login_keeps_succeeding (db : store) (username password : string)
        (body : list (string * field_value)) (rs : list request) :
  LoginUser_post (credentials username password) db = (Val (body, 200), db) ->
  LoginUser_post (credentials username password) (serve_all py_str db rs)
  = (Val (body, 200), serve_all py_str db rs).
Proof.
  destruct (serve_all_users rs db) as [more E].
  run. rewrite E.
  destruct (find _ (users db)) as [user|] eqn:Efind; [|discriminate].
  rewrite (find_prefix _ _ more Efind). now intros [= <-].
Qed.

(** X11. A username that is taken stays taken: whatever requests are served
    afterwards, a registration for it is answered 409 and changes
    nothing. *)
Theorem username_stays_taken (db : store) (username : string)
        (rs : list request) (now : datetime) (password : string) :
  username_taken db username ->
  RegisterUser_post now (credentials username password)
                    (serve_all py_str db rs)
  = (Abort 409 (Message "Username already exists"), serve_all py_str db rs).
Proof.
  intros Htaken. rewrite RegisterUser_post_cases.
  assert (Hlater : username_taken (serve_all py_str db rs) username).
  { destruct (serve_all_users rs db) as [more E].
    unfold username_taken, usernames in *. rewrite E, map_app.
    apply in_or_app. now left. }
  apply find_username in Hlater. now rewrite Hlater.
Qed.

(** X12. What a user has retrieved stays, and what comes after it is that
    user's later captures: whatever requests are served afterwards, the
    captures table is the former one followed by the captures added, and
    the retrieval handler answers 200 for that user with the same records
    at the head of the list, in the same order, followed by the records
    of the added captures that carry the user's id, and no other. *)
Theorem retrieval_only_grows (db : store) (user_id : Z)
        (before : list data_capture_fields.t) (rs : list request) :
  GetUserData_get py_str user_id db = (Val (before, 200), db) ->
  exists added,
    captures (serve_all py_str db rs) = captures db ++ added
    /\ GetUserData_get py_str user_id (serve_all py_str db rs)
       = (Val (before
               ++ map (marshal_data_capture py_str)
                    (filter (owned_by user_id) added), 200),
          serve_all py_str db rs).
Proof.
  intros Hget.
  assert (Hex : user_exists db user_id).
  { pose proof (query_get_exists db user_id) as H. revert Hget. run.
    destruct (find _ (users db)) as [user|]; [|discriminate].
    intros _. now exists user. }
  rewrite GetUserData_get_rows in Hget by exact Hex.
  injection Hget as <-.
  destruct (serve_all_users rs db) as [more Eu].
  destruct (serve_all_captures rs db) as [added Ec].
  exists added. split; [exact Ec|].
  rewrite GetUserData_get_rows.
  - now rewrite Ec, filter_app, map_app.
  - destruct Hex as (u & Hin & Hid). exists u. split; [|exact Hid].
    rewrite Eu. apply in_or_app. now left.
Qed.

Lemma reachable_serve_all (db : store) (rs : list request) :
  reachable py_str db -> reachable py_str (serve_all py_str db rs).
Proof.
  revert db. induction rs as [|r rs IH]; intros db H; [exact H|].
  cbn [serve_all fold_left]. apply IH. now constructor.
Qed.

Lemma reachable_integrity (db : store) :
  reachable py_str db -> referential_integrity db.
Proof.
  induction 1 as [|db r _ IH]; [intros c []|].
  intros c Hin. apply user_exists_serve.
  destruct (serve_captures py_str db r) as [E | (c' & E & Hc')];
    rewrite E in Hin; [now apply IH|].
  apply in_app_or in Hin as [Hin | [<- | []]]; [now apply IH | exact Hc'].
Qed.

(** X13. Every capture the service has stored can be retrieved: in every
    store the service can be in, the retrieval handler answers 200 for the
    user id a capture carries, with a list that holds that capture; and no
    list it returns for another user id holds it. *)
Theorem every_capture_retrievable (db : store) (c : DataCaptureModel.t) :
  reachable py_str db ->
  In c (captures db) ->
  (exists body,
      GetUserData_get py_str (DataCaptureModel.user_id c) db
      = (Val (body, 200), db)
      /\ In (marshal_data_capture py_str c) body)
  /\ forall other body,
      other <> DataCaptureModel.user_id c ->
      GetUserData_get py_str other db = (Val (body, 200), db) ->
      ~ In (marshal_data_capture py_str c) body.
Proof.
  intros Hreach Hin. split.
  - eexists. split.
    + apply GetUserData_get_rows. now apply (reachable_integrity Hreach).
    + apply in_map, filter_In. split; [exact Hin|].
      unfold owned_by. apply Z.eqb_refl.
  - intros other body Hother Hget Hbody.
    assert (Hex : user_exists db other).
    { pose proof (query_get_exists db other) as H. revert Hget. run.
      destruct (find _ (users db)) as [user|]; [|discriminate].
      intros _. now exists user. }
    rewrite GetUserData_get_rows in Hget by exact Hex.
    injection Hget as <-.
    apply in_map_iff in Hbody as (c' & E & Hc').
    apply filter_In in Hc' as [_ Hown]. unfold owned_by in Hown.
    apply Z.eqb_eq in Hown. apply Hother. rewrite <- Hown.
    now apply (f_equal data_capture_fields.user_id) in E.
Qed.

End Runs.

(** ** The properties above on a day of requests *)

Lemma submission_extends_retrieval_witness :
  exists before record db',
    DataCapture_post str morning 1 (sample (Some a_is_1)) alice_registered
    = (Val (record, 201), db')
    /\ GetUserData_get str 1 alice_registered
       = (Val (before, 200), alice_registered)
    /\ GetUserData_get str 1 db' = (Val (before ++ [record], 200), db').
Proof.
  destruct (@submission_extends_retrieval str morning 1
              (sample (Some a_is_1)) alice_registered _ _ eq_refl)
    as [(before & Hbefore & Hafter) _].
  eexists before, _, _. split; [reflexivity|]. split; assumption.
Defined.

Lemma busy_day_reachable :
  reachable str (serve_all str alice_registered busy_day).
Proof. apply reachable_serve_all, alice_registered_reachable. Qed.

Lemma keys_count_rows_witness :
  map UserModel.id (users (serve_all str alice_registered busy_day)) = [1; 2]
  /\ map DataCaptureModel.id
       (captures (serve_all str alice_registered busy_day)) = [1].
Proof.
  destruct (keys_count_rows busy_day_reachable) as (Hu & Hc & _).
  split; [exact Hu | exact Hc].
Defined.

Lemma login_keeps_succeeding_witness :
  LoginUser_post alice (serve_all str alice_registered busy_day)
  = (Val ([ ("id", IntValue 1);
            ("username", StrValue "alice");
            ("createdAt", StrValue (isoformat morning)) ], 200),
     serve_all str alice_registered busy_day).
Proof.
  apply (@login_keeps_succeeding str alice_registered "alice" "Valid1Pass!").
  reflexivity.
Defined.

Lemma username_stays_taken_witness :
  RegisterUser_post morning (credentials "alice" "Another3Pass&")
                    (serve_all str alice_registered busy_day)
  = (Abort 409 (Message "Username already exists"),
     serve_all str alice_registered busy_day).
Proof.
  apply (@username_stays_taken str alice_registered "alice").
  left. reflexivity.
Defined.

Lemma retrieval_only_grows_witness :
  exists first second,
    GetUserData_get str 1 alice_captured = (Val ([first], 200), alice_captured)
    /\ data_capture_fields.id first = 1
    /\ GetUserData_get str 1 (serve_all str alice_captured busy_day)
       = (Val ([first; second], 200), serve_all str alice_captured busy_day)
    /\ data_capture_fields.id second = 2.
Proof.
  destruct (@retrieval_only_grows str alice_captured 1 _ busy_day eq_refl)
    as (added & Hadded & Hlater).
  apply app_inv_head in Hadded. subst added.
  eexists _, _. split; [reflexivity|]. split; [reflexivity|].
  split; [exact Hlater | reflexivity].
Defined.

Lemma every_capture_retrievable_witness :
  exists c body,
    In c (captures (serve_all str alice_registered busy_day))
    /\ GetUserData_get str (DataCaptureModel.user_id c)
         (serve_all str alice_registered busy_day)
       = (Val (body, 200), serve_all str alice_registered busy_day)
    /\ In (marshal_data_capture str c) body.
Proof.
  eexists.
  edestruct (@every_capture_retrievable str
               (serve_all str alice_registered busy_day))
    as [(body & Hget & Hin) _];
    [exact busy_day_reachable | left; reflexivity |].
  exists body. split; [left; reflexivity|]. split; eassumption.
Defined.
